(** * Sportex API: registration, capacity and visibility rules

    A shallow embedding of [main.py] and [schemas.py]: Python values and
    dictionaries, the document store the handlers talk to, the pydantic
    schemas, and the route handlers as computations over the store that
    either return a value or raise. *)

From stdpp Require Import base gmap sets list strings pretty.
From Stdlib Require Import ZArith QArith.QArith_base.

Close Scope Q_scope.
Set Warnings "-register-all,-clear-no-such-hyp".

(** ** Python values *)

Module Py.

(** What a document field can hold.  Floats are carried as exact rationals
    and datetimes as seconds since the epoch: the handlers store and return
    them but never compute on them, apart from [seed]. *)
Inductive value :=
| VNone
| VBool (b : bool)
| VInt (z : Z)
| VFloat (q : Q)
| VStr (s : string)
| VDatetime (t : Z)
| VList (l : list value)
| VDict (d : list (string * value)).

Lemma value_eq_dec : ∀ x y : value, {x = y} + {x ≠ y}.
Proof.
  fix IH 1.
  decide equality.
  - apply bool_dec.
  - apply Z.eq_dec.
  - decide equality; [apply Pos.eq_dec | apply Z.eq_dec].
  - apply String.string_dec.
  - apply Z.eq_dec.
  - apply (List.list_eq_dec IH).
  - apply List.list_eq_dec. decide equality. apply String.string_dec.
Defined.

#[global] Instance value_eq : EqDecision value := value_eq_dec.

(** A document, a request payload after [model_dump()], a decoded token:
    a [dict] with string keys. *)
Abbreviation doc := (gmap string value).

(** [d.get(k)] and [d.get(k, dflt)]. *)
Definition get (d : doc) (k : string) : value := default VNone (d !! k).
Definition get_or (d : doc) (k : string) (dflt : value) : value :=
  default dflt (d !! k).

(** Truth value of an object in a condition ([if x], [not x], [x or y]). *)
Definition truthy (v : value) : bool :=
  match v with
  | VNone => false
  | VBool b => b
  | VInt z => negb (Z.eqb z 0)
  | VFloat q => negb (Z.eqb (Qnum q) 0)
  | VStr s => negb (String.eqb s "")
  | VDatetime _ => true
  | VList l => match l with [] => false | _ => true end
  | VDict d => match d with [] => false | _ => true end
  end.

(** The result of [find_one] is [None] or a dict; an empty dict is falsy. *)
Definition truthy_doc (o : option doc) : bool :=
  match o with
  | None => false
  | Some d => bool_decide (d ≠ ∅)
  end.

(** [a or b] on results of [find_one]. *)
Definition py_or (a b : option doc) : option doc :=
  if truthy_doc a then a else b.

(** [x in xs] for a list value; [x not in xs] is its negation. *)
Definition py_in (x : value) (xs : list value) : bool := bool_decide (x ∈ xs).

(** [{k: d[k] for k in keys if k in d}]. *)
Definition project (keys : list string) (d : doc) : doc :=
  foldr (λ k acc, match d !! k with Some v => <[k:=v]> acc | None => acc end)
        ∅ keys.

(** What a handler call may raise.  FastAPI turns an [HTTPException] into a
    response with that status code and any other exception into a 500. *)
Inductive exn :=
| HTTPException (status_code : nat) (detail : string)
| ValidationError (field : string)
| KeyError (key : string)
| TypeError
| StoreError.

Inductive result (A : Type) :=
| Ok (a : A)
| Raise (e : exn).
Arguments Ok {A} a.
Arguments Raise {A} e.

(** [int(v)] as [register_event] applies it to a stored capacity.  Event
    documents are written through the [Event] schema, whose [capacity] is an
    [int]; the parsing of numeric strings is left out and a string is
    refused like any other non-number. *)
Definition py_int (v : value) : result Z :=
  match v with
  | VInt z => Ok z
  | VBool b => Ok (if b then 1 else 0)%Z
  | VFloat q => Ok (Z.quot (Qnum q) (Zpos (Qden q)))
  | _ => Raise TypeError
  end.

End Py.
Export Py.

(** ** The document store *)

Module Store.

(** Modelled from the spec: the document store adapter ([database.py], which
    provides [db] and [create_document]) is not among the sources.  The spec
    (section 6) gives it, per named collection, [findOne(filter)],
    [find(filter)], [insert(record) -> generated_id],
    [updateOne(filter, partial_update)] and [countDocuments(filter)], with
    filters that are field equalities or [$in] memberships.  A collection is
    the list of its documents in insertion order.  [insert] generates an
    identifier never handed out before and stores the record under it, in
    the fields [_id] and [id] the handlers look records up by.  The spec
    speaks of a write that fails after an earlier one was committed
    (sections 4.4 and 7): [rejecting] names the collections whose inserts
    currently fail. *)
Record Db := mkDb {
  colls : gmap string (list doc);
  next_id : nat;
  rejecting : gset string;
}.

Definition empty_db : Db := mkDb ∅ 0 ∅.

Definition coll (c : string) (db : Db) : list doc := default [] (colls db !! c).

Definition set_coll (c : string) (l : list doc) (db : Db) : Db :=
  mkDb (<[c := l]> (colls db)) (next_id db) (rejecting db).

(** Filters: [{"k": v}] and [{"k": {"$in": [v1, ..., vn]}}].  A missing field
    reads as [None], as in the store's matching of [null]. *)
Inductive cond :=
| Eq (v : value)
| In_ (vs : list value).

Abbreviation query := (list (string * cond)).

Definition holds (d : doc) (kc : string * cond) : bool :=
  match kc.2 with
  | Eq v => bool_decide (get d kc.1 = v)
  | In_ vs => bool_decide (get d kc.1 ∈ vs)
  end.

Definition matches (q : query) (d : doc) : bool := forallb (holds d) q.

(** Computations over the store: a call returns or raises, and in both
    cases leaves a store behind (nothing is rolled back). *)
Definition M (A : Type) : Type := Db → result A * Db.

#[global] Instance M_ret : MRet M := λ A a db, (Ok a, db).
#[global] Instance M_bind : MBind M := λ A B k m db,
  match m db with
  | (Ok a, db') => k a db'
  | (Raise e, db') => (Raise e, db')
  end.

Definition raise {A} (e : exn) : M A := λ db, (Raise e, db).

Definition lift {A} (r : result A) : M A := λ db, (r, db).

Definition find_one (c : string) (q : query) : M (option doc) :=
  λ db, (Ok (List.find (matches q) (coll c db)), db).

Definition find (c : string) (q : query) : M (list doc) :=
  λ db, (Ok (List.filter (matches q) (coll c db)), db).

Definition count_documents (c : string) (q : query) : M nat :=
  λ db, (Ok (length (List.filter (matches q) (coll c db))), db).

(** [update_one(filter, {"$set": fields})]: the first match gets the fields. *)
Fixpoint set_first (q : query) (fields : doc) (l : list doc) : list doc :=
  match l with
  | [] => []
  | d :: l' => if matches q d then (fields ∪ d) :: l' else d :: set_first q fields l'
  end.

Definition update_one (c : string) (q : query) (fields : doc) : M unit :=
  λ db, (Ok (), set_coll c (set_first q fields (coll c db)) db).

(** The identifier generated for the [n]-th insert. *)
Definition oid (n : nat) : string := pretty n.

Definition stored (rid : string) (data : doc) : doc :=
  <["id" := VStr rid]> (<["_id" := VStr rid]> data).

Definition add_doc (c : string) (d : doc) (db : Db) : Db :=
  mkDb (<[c := coll c db ++ [d]]> (colls db)) (S (next_id db)) (rejecting db).

Definition create_document (c : string) (data : doc) : M string :=
  λ db,
    if bool_decide (c ∈ rejecting db) then (Raise StoreError, db)
    else
      let rid := oid (next_id db) in
      (Ok rid, add_doc c (stored rid data) db).

End Store.
Export Store.

(** ** Schemas ([schemas.py]) *)

Module Schemas.

#[global] Instance result_ret : MRet result := λ A a, Ok a.
#[global] Instance result_bind : MBind result := λ A B k r,
  match r with
  | Ok a => k a
  | Raise e => Raise e
  end.

(** A field typed [str] accepts a string and nothing else ([None] and
    numbers are not coerced); a [Literal[...]] field one of its strings. *)
Definition str_field (f : string) (v : value) : result value :=
  match v with
  | VStr _ => Ok v
  | _ => Raise (ValidationError f)
  end.

Definition literal_field (f : string) (allowed : list string) (s : string)
  : result value :=
  if bool_decide (s ∈ allowed) then Ok (VStr s) else Raise (ValidationError f).

Definition opt_str (o : option string) : value := from_option VStr VNone o.
Definition opt_int (o : option Z) : value := from_option VInt VNone o.

(** Each constructor validates its arguments and yields the [model_dump()]
    of the model, defaults included.  Arguments that the handlers take from
    an already validated payload, or write as literals, have their Rocq
    type; those taken from a stored document ([current.get("id")],
    [evt.get("organizer_user_id")]) are values and are validated here. *)
Definition UserSchema (email password_hash name role : string)
    (location : option string) : result doc :=
  r ← literal_field "role" ["athlete"; "coach"; "organizer"; "admin"; "guest"] role;
  mret (list_to_map
    [("email", VStr email); ("password_hash", VStr password_hash);
     ("name", VStr name); ("role", r); ("avatar_url", VNone);
     ("location", opt_str location); ("is_active", VBool true);
     ("privacy", VStr "public")]).

Definition AthleteProfileSchema (user_id : value) (sport : string)
    (position bio : option string) (height_cm weight_kg : option Z)
    (stats : list (string * value)) (achievements : list string)
    (media : list (list (string * value))) (recent_performance : list value)
  : result doc :=
  u ← str_field "user_id" user_id;
  mret (list_to_map
    [("user_id", u); ("sport", VStr sport); ("position", opt_str position);
     ("bio", opt_str bio); ("height_cm", opt_int height_cm);
     ("weight_kg", opt_int weight_kg); ("stats", VDict stats);
     ("achievements", VList (VStr <$> achievements));
     ("media", VList (VDict <$> media));
     ("recent_performance", VList recent_performance)]).

Definition TeamSchema (name : string) (coach_user_id : value) (sport : string)
    (location : option string) : result doc :=
  c ← str_field "coach_user_id" coach_user_id;
  mret (list_to_map
    [("name", VStr name); ("coach_user_id", c); ("sport", VStr sport);
     ("location", opt_str location); ("roster_user_ids", VList [])]).

Definition EventSchema (title sport : string) (description : option string)
    (location : string) (starts_at ends_at capacity : Z)
    (organizer_user_id : value) : result doc :=
  o ← str_field "organizer_user_id" organizer_user_id;
  mret (list_to_map
    [("title", VStr title); ("sport", VStr sport);
     ("description", opt_str description); ("location", VStr location);
     ("starts_at", VDatetime starts_at); ("ends_at", VDatetime ends_at);
     ("capacity", VInt capacity); ("organizer_user_id", o)]).

Definition RegistrationSchema (event_id : string) (user_id : value)
    (status : string) : result doc :=
  u ← str_field "user_id" user_id;
  s ← literal_field "status" ["pending"; "confirmed"; "waitlisted"; "cancelled"] status;
  mret (list_to_map
    [("event_id", VStr event_id); ("user_id", u); ("status", s)]).

Definition NotificationSchema (user_id : value) (type title body : string)
  : result doc :=
  u ← str_field "user_id" user_id;
  t ← literal_field "type" ["invite"; "event_update"; "system"] type;
  mret (list_to_map
    [("user_id", u); ("type", t); ("title", VStr title); ("body", VStr body);
     ("read", VBool false)]).

(** [Moderation] arrives as a request body, validated at the boundary. *)
Record Moderation := {
  target_type : string;
  target_id : string;
  action : string;
  reason : option string;
}.

Definition Moderation_dump (a : Moderation) : doc :=
  list_to_map
    [("target_type", VStr (target_type a)); ("target_id", VStr (target_id a));
     ("action", VStr (action a)); ("reason", opt_str (reason a))].

End Schemas.
Export Schemas.

(** ** Route handlers ([main.py]) *)

(** Request bodies, as the boundary validation hands them to the handlers. *)
Record RegisterPayload := {
  rp_email : string;
  rp_password : string;
  rp_name : string;
  rp_role : string;
}.

Record ProfilePayload := {
  pp_sport : string;
  pp_position : option string;
  pp_bio : option string;
  pp_height_cm : option Z;
  pp_weight_kg : option Z;
  pp_stats : list (string * value);
  pp_achievements : list string;
  pp_media : list (list (string * value));
}.

Record TeamCreate := {
  tc_name : string;
  tc_sport : string;
  tc_location : option string;
}.

Record EventCreate := {
  ec_title : string;
  ec_sport : string;
  ec_description : option string;
  ec_location : string;
  ec_starts_at : Z;
  ec_ends_at : Z;
  ec_capacity : Z;
}.

(** [d[k]]. *)
Definition getitem (d : doc) (k : string) : M value :=
  match d !! k with
  | Some v => mret v
  | None => raise (KeyError k)
  end.

(** [find_one(...) or dflt] where [dflt] is a dict. *)
Definition doc_or (o : option doc) (dflt : doc) : doc :=
  match o with
  | Some d => if bool_decide (d ≠ ∅) then d else dflt
  | None => dflt
  end.

(** The document in [o] when [o] passes [if o:], for [if not o: raise ...]
    and [if o: return o]. *)
Definition if_found (o : option doc) : option doc :=
  if truthy_doc o then o else None.

(** [for x in xs: ...], collecting what each round yields. *)
Fixpoint for_each {A B} (f : A → M B) (xs : list A) : M (list B) :=
  match xs with
  | [] => mret []
  | x :: xs' => y ← f x; ys ← for_each f xs'; mret (y :: ys)
  end.

Definition limited_fields : list string :=
  ["sport"; "position"; "stats"; "achievements"; "media"].

Section Handlers.

(** Library functions the handlers call: passlib's hash (its salt is not
    modelled), the token encoder, [str()] and [date.isoformat()]. *)
Variable hash_password : string → string.
Variable create_access_token : doc → string.
Variable py_str : value → string.
Variable isoformat_date : Z → string.

(** [get_current_user], from the claims of the decoded token on: splitting
    the header and checking the signature precede every store access.  The
    [HTTPException]s raised inside the [try] are caught by its
    [except Exception] and leave as "Invalid authorization header". *)
Definition get_current_user (payload : doc) : M doc :=
  let unauthorized := HTTPException 401 "Invalid authorization header" in
  let user_id := get payload "sub" in
  if negb (truthy user_id) then raise unauthorized
  else
    by_id ← find_one "user" [("id", Eq user_id)];
    user ← (if truthy_doc by_id then mret by_id
            else find_one "user" [("_id", Eq user_id)]);
    user ← (if negb (truthy_doc user) then
              let email := get payload "email" in
              if truthy email then find_one "user" [("email", Eq email)]
              else mret user
            else mret user);
    match if_found user with
    | None => raise unauthorized
    | Some u => mret u
    end.

Definition register (payload : RegisterPayload) : M doc :=
  existing ← find_one "user" [("email", Eq (VStr (rp_email payload)))];
  if truthy_doc existing then
    raise (HTTPException 400 "Email already registered")
  else
    user ← lift (UserSchema (rp_email payload)
                   (hash_password (rp_password payload))
                   (rp_name payload) (rp_role payload) None);
    uid ← create_document "user" user;
    let token := create_access_token
      (list_to_map [("sub", VStr uid); ("email", get user "email");
                    ("role", get user "role")]) in
    mret (list_to_map [("access_token", VStr token);
                       ("token_type", VStr "bearer")]).

Definition upsert_athlete_profile (data : ProfilePayload) (now : Z)
    (current : doc) : M (option doc) :=
  let user_id := if truthy (get current "id") then get current "id"
                 else VStr (py_str (get current "_id")) in
  existing ← find_one "athleteprofile" [("user_id", Eq user_id)];
  profile ← lift (AthleteProfileSchema user_id (pp_sport data)
                    (pp_position data) (pp_bio data) (pp_height_cm data)
                    (pp_weight_kg data) (pp_stats data)
                    (pp_achievements data) (pp_media data) []);
  let payload := <["updated_at" := VDatetime now]> profile in
  match if_found existing with
  | Some ex =>
      key ← getitem ex "_id";
      update_one "athleteprofile" [("_id", Eq key)] payload;;
      find_one "athleteprofile" [("_id", Eq key)]
  | None =>
      new_id ← create_document "athleteprofile" payload;
      found ← find_one "athleteprofile" [("id", Eq (VStr new_id))];
      mret (Some (doc_or found (<["id" := VStr new_id]> payload)))
  end.

Definition get_athlete (athlete_id : string) (current : doc) : M doc :=
  by_id ← find_one "athleteprofile" [("id", Eq (VStr athlete_id))];
  found ← (if truthy_doc by_id then mret by_id
           else find_one "athleteprofile" [("_id", Eq (VStr athlete_id))]);
  match if_found found with
  | None => raise (HTTPException 404 "Athlete not found")
  | Some d =>
      let owner_id := get d "user_id" in
      o ← find_one "user" [("id", Eq owner_id)];
      let owner := doc_or o ∅ in
      let privacy := get_or owner "privacy" (VStr "public") in
      if bool_decide (privacy = VStr "private")
         && bool_decide (get current "id" ≠ owner_id)
         && bool_decide (get current "role" ≠ VStr "admin")
      then raise (HTTPException 403 "Profile is private")
      else if bool_decide (privacy = VStr "limited")
              && bool_decide (get current "id" ≠ owner_id)
              && bool_decide (get current "role" ≠ VStr "admin")
      then mret (project limited_fields d)
      else mret d
  end.

Definition create_team (payload : TeamCreate) (current : doc) : M doc :=
  if negb (py_in (get current "role")
                 [VStr "coach"; VStr "organizer"; VStr "admin"]) then
    raise (HTTPException 403 "Only coaches/organizers can create teams")
  else
    team ← lift (TeamSchema (tc_name payload) (get current "id")
                   (tc_sport payload) (tc_location payload));
    team_id ← create_document "team" team;
    found ← find_one "team" [("id", Eq (VStr team_id))];
    mret (doc_or found (<["id" := VStr team_id]> team)).

(** The roster of a team document is a list ([Team.roster_user_ids] is a
    [List[str]]); on anything else [in] or [append] is taken to fail. *)
Definition add_to_roster (team_id user_id : string) (current : doc) : M doc :=
  found ← find_one "team" [("id", Eq (VStr team_id))];
  match if_found found with
  | None => raise (HTTPException 404 "Team not found")
  | Some team =>
      if negb (py_in (get current "role") [VStr "coach"; VStr "admin"])
         || bool_decide (get team "coach_user_id" ≠ get current "id")
      then raise (HTTPException 403 "Only coach can modify roster")
      else
        match get_or team "roster_user_ids" (VList []) with
        | VList roster =>
            if negb (py_in (VStr user_id) roster) then
              let roster := roster ++ [VStr user_id] in
              update_one "team" [("id", Eq (VStr team_id))]
                         {["roster_user_ids" := VList roster]};;
              name ← getitem team "name";
              notif ← lift (NotificationSchema (VStr user_id) "invite"
                              "Team Invite"
                              ("You were added to " +:+ py_str name));
              create_document "notification" notif;;
              mret (list_to_map [("ok", VBool true); ("roster", VList roster)])
            else
              mret (list_to_map [("ok", VBool true); ("roster", VList roster)])
        | _ => raise TypeError
        end
  end.

Definition create_event (payload : EventCreate) (current : doc) : M doc :=
  if negb (py_in (get current "role")
                 [VStr "organizer"; VStr "coach"; VStr "admin"]) then
    raise (HTTPException 403 "Only organizers/coaches can create events")
  else
    evt ← lift (EventSchema (ec_title payload) (ec_sport payload)
                  (ec_description payload) (ec_location payload)
                  (ec_starts_at payload) (ec_ends_at payload)
                  (ec_capacity payload) (get current "id"));
    eid ← create_document "event" evt;
    found ← find_one "event" [("id", Eq (VStr eid))];
    mret (doc_or found (<["id" := VStr eid]> evt)).

Definition register_event (event_id : string) (current : doc) : M doc :=
  found ← find_one "event" [("id", Eq (VStr event_id))];
  match if_found found with
  | None => raise (HTTPException 404 "Event not found")
  | Some evt =>
      existing ← find_one "registration"
        [("event_id", Eq (VStr event_id)); ("user_id", Eq (get current "id"))];
      match if_found existing with
      | Some reg0 => mret reg0
      | None =>
          count ← count_documents "registration"
            [("event_id", Eq (VStr event_id));
             ("status", In_ [VStr "pending"; VStr "confirmed"])];
          capacity ← lift (py_int (get_or evt "capacity" (VInt 100)));
          let status := if bool_decide (Z.of_nat count < capacity)%Z
                        then "confirmed" else "waitlisted" in
          reg ← lift (RegistrationSchema event_id (get current "id") status);
          rid ← create_document "registration" reg;
          title ← getitem evt "title";
          notif ← lift (NotificationSchema (get evt "organizer_user_id")
                          "event_update" "New Registration"
                          ("New registration for " +:+ py_str title));
          create_document "notification" notif;;
          stored_reg ← find_one "registration" [("id", Eq (VStr rid))];
          mret (doc_or stored_reg (<["id" := VStr rid]> reg))
      end
  end.

Definition mark_read (notif_id : string) (current : doc) : M doc :=
  update_one "notification" [("id", Eq (VStr notif_id))]
             {["read" := VBool true]};;
  mret {["ok" := VBool true]}.

Definition moderate (action : Moderation) (current : doc) : M doc :=
  if bool_decide (get current "role" ≠ VStr "admin") then
    raise (HTTPException 403 "Admins only")
  else
    create_document "moderation" (Moderation_dump action);;
    mret {["ok" := VBool true]}.

(** One round of the loop over [range(10)] in [seed].  The clock is read
    once per request; [round(x, 1)] of the sums is their exact decimal. *)
Definition seed_athlete (now : Z) (i : nat) : M string :=
  let sports := ["basketball"; "soccer"; "track"; "volleyball"] in
  let tenths (z : Z) := VFloat (Qmake z 10) in
  user ← lift (UserSchema ("athlete" +:+ pretty (i + 1) +:+ "@sportex.io")
                 (hash_password "pass1234") ("Athlete " +:+ pretty (i + 1))
                 "athlete" (Some "Austin, TX"));
  uid ← create_document "user" user;
  prof ← lift (AthleteProfileSchema (VStr uid)
    (nth (i mod length sports) sports "")
    (Some (nth (i mod 4) ["G"; "F"; "M"; "S"] ""))
    (Some "Aspiring athlete ready to compete.") None None
    [("ppg", tenths (80 + Z.of_nat i * 7)%Z);
     ("apg", tenths (20 + Z.of_nat i * 3)%Z)]
    (if bool_decide (i mod 2 = 0) then ["All-County"; "MVP Nominee"]
     else ["All-Conference"])
    [[("type", VStr "image"); ("url", VStr "https://placehold.co/600x400");
      ("thumb", VStr "https://placehold.co/300x200")]]
    ((λ d : nat, VDict
        [("date", VStr (isoformat_date (now - 86400 * Z.of_nat d)%Z));
         ("metric", VStr "ppg");
         ("value", tenths (60 + 10 * Z.of_nat (i mod 5) + Z.of_nat d * 2)%Z)])
       <$> seq 0 5));
  create_document "athleteprofile" prof;;
  mret uid.

Definition seed (now : Z) : M doc :=
  users ← count_documents "user" [];
  if bool_decide (0 < users) then mret {["message" := VStr "Already seeded"]}
  else
    u ← lift (UserSchema "admin@sportex.io" (hash_password "admin123")
                "Admin" "admin" None);
    admin_id ← create_document "user" u;
    u ← lift (UserSchema "coach@sportex.io" (hash_password "coach123")
                "Coach Carla" "coach" (Some "Austin, TX"));
    coach_id ← create_document "user" u;
    u ← lift (UserSchema "org@sportex.io" (hash_password "org123")
                "Org Omar" "organizer" (Some "Dallas, TX"));
    org_id ← create_document "user" u;
    athletes ← for_each (seed_athlete now) (seq 0 10);
    t ← lift (TeamSchema "Austin Hawks" (VStr coach_id) "basketball"
                (Some "Austin, TX"));
    team_id ← create_document "team" t;
    e ← lift (EventSchema "Spring Showcase" "basketball"
                (Some "Open run for scouts") "Austin, TX"
                (now + 7 * 86400)%Z (now + 7 * 86400 + 3 * 3600)%Z 50%Z
                (VStr org_id));
    e1 ← create_document "event" e;
    e ← lift (EventSchema "Summer Combine" "soccer"
                (Some "Drills and scrimmages") "Dallas, TX"
                (now + 21 * 86400)%Z (now + 21 * 86400 + 4 * 3600)%Z 80%Z
                (VStr org_id));
    e2 ← create_document "event" e;
    let roster := take 5 athletes in
    update_one "team" [("id", Eq (VStr team_id))]
               {["roster_user_ids" := VList (VStr <$> roster)]};;
    for_each (λ uid,
        r ← lift (RegistrationSchema e1 (VStr uid) "confirmed");
        create_document "registration" r)
      (take 3 athletes);;
    mret (list_to_map
      [("message", VStr "Seeded"); ("admin_id", VStr admin_id);
       ("coach_id", VStr coach_id); ("organizer_id", VStr org_id);
       ("team_id", VStr team_id); ("event_ids", VList [VStr e1; VStr e2])]).

(** ** Sequential execution of the API *)

(** The calls that reach the store with a write, and [get_athlete].  The
    other routes ([login], [me], the listings, the dashboards) only read.
    [token] is the decoded bearer token of an authenticated route. *)
Inductive request :=
| PostAuthRegister (payload : RegisterPayload)
| PostAthletesMe (token : doc) (data : ProfilePayload) (now : Z)
| GetAthlete (token : doc) (athlete_id : string)
| PostTeams (token : doc) (payload : TeamCreate)
| PostTeamsAdd (token : doc) (team_id user_id : string)
| PostEvents (token : doc) (payload : EventCreate)
| PostEventsRegister (token : doc) (event_id : string)
| PostNotificationsRead (token : doc) (notif_id : string)
| PostAdminModerate (token : doc) (action : Moderation)
| PostSeed (now : Z).

(** [current=Depends(get_current_user)]. *)
Definition depends {A} (token : doc) (h : doc → M A) : M A :=
  current ← get_current_user token; h current.

Definition respond (m : M doc) : M (option doc) := d ← m; mret (Some d).

Definition handle (r : request) : M (option doc) :=
  match r with
  | PostAuthRegister payload => respond (register payload)
  | PostAthletesMe token data now =>
      depends token (upsert_athlete_profile data now)
  | GetAthlete token athlete_id =>
      respond (depends token (get_athlete athlete_id))
  | PostTeams token payload => respond (depends token (create_team payload))
  | PostTeamsAdd token team_id user_id =>
      respond (depends token (add_to_roster team_id user_id))
  | PostEvents token payload => respond (depends token (create_event payload))
  | PostEventsRegister token event_id =>
      respond (depends token (register_event event_id))
  | PostNotificationsRead token notif_id =>
      respond (depends token (mark_read notif_id))
  | PostAdminModerate token action =>
      respond (depends token (moderate action))
  | PostSeed now => respond (seed now)
  end.

(** The stores that requests served one after the other can produce from
    the empty store, inserts of any collection failing or working again
    between two requests. *)
Inductive reachable : Db → Prop :=
| reach_empty : reachable empty_db
| reach_request db r : reachable db → reachable (handle r db).2
| reach_outage db R :
    reachable db → reachable (mkDb (colls db) (next_id db) R).

End Handlers.

(** ** Routes that only read *)

Record LoginPayload := {
  lp_email : string;
  lp_password : string;
}.

(** What the listings answer. *)
Record Page := {
  results : list doc;
  total : nat;
  page : Z;
  page_size : Z;
}.

Record Dashboard := {
  teams : list doc;
  events : list doc;
  registrations : list doc;
}.

Record Overview := {
  users : nat;
  athletes : nat;
  n_teams : nat;
  n_events : nat;
  n_registrations : nat;
}.

(** [xs[start:stop]]: a negative index counts from the end, and both ends
    are clamped to the list. *)
Definition py_slice {A} (xs : list A) (start stop : Z) : list A :=
  let n := Z.of_nat (length xs) in
  let clamp (i : Z) := if (i <? 0)%Z then Z.max 0 (i + n) else Z.min i n in
  take (Z.to_nat (clamp stop - clamp start)) (drop (Z.to_nat (clamp start)) xs).

Section Reads.

(** passlib's [verify], which raises on a stored hash it cannot identify,
    the token encoder and [str()]. *)
Variable verify_password : string → value → result bool.
Variable create_access_token : doc → string.
Variable py_str : value → string.

Definition login (payload : LoginPayload) : M doc :=
  user ← find_one "user" [("email", Eq (VStr (lp_email payload)))];
  match if_found user with
  | None => raise (HTTPException 400 "Invalid credentials")
  | Some u =>
      ok ← lift (verify_password (lp_password payload)
                   (get_or u "password_hash" (VStr "")));
      if negb ok then raise (HTTPException 400 "Invalid credentials")
      else
        let sub := if truthy (get u "id") then get u "id"
                   else VStr (py_str (get u "_id")) in
        email ← getitem u "email";
        let token := create_access_token
          (list_to_map [("sub", sub); ("email", email);
                        ("role", get_or u "role" (VStr "athlete"))]) in
        mret (list_to_map [("access_token", VStr token);
                           ("token_type", VStr "bearer")])
  end.

(** [{k: v for k, v in current.items() if k not in ("password_hash",)}]. *)
Definition me (current : doc) : doc :=
  filter (λ kv, kv.1 ∉ ["password_hash"]) current.

Definition get_team (team_id : string) : M doc :=
  by_id ← find_one "team" [("id", Eq (VStr team_id))];
  found ← (if truthy_doc by_id then mret by_id
           else find_one "team" [("_id", Eq (VStr team_id))]);
  match if_found found with
  | None => raise (HTTPException 404 "Team not found")
  | Some d => mret d
  end.

Definition list_events (sport : option string) (page page_size : Z) : M Page :=
  let q := match sport with
           | Some s => if truthy (VStr s) then [("sport", Eq (VStr s))] else []
           | None => []
           end in
  docs ← find "event" q;
  let total := length docs in
  let start := ((page - 1) * page_size)%Z in
  let stop := (start + page_size)%Z in
  mret {| results := py_slice docs start stop; total := total;
          page := page; page_size := page_size |}.

Definition get_event (event_id : string) : M doc :=
  by_id ← find_one "event" [("id", Eq (VStr event_id))];
  found ← (if truthy_doc by_id then mret by_id
           else find_one "event" [("_id", Eq (VStr event_id))]);
  match if_found found with
  | None => raise (HTTPException 404 "Event not found")
  | Some d => mret d
  end.

Definition coach_dashboard (current : doc) : M Dashboard :=
  if negb (py_in (get current "role") [VStr "coach"; VStr "admin"]) then
    raise (HTTPException 403 "Only coaches")
  else
    ts ← find "team" [("coach_user_id", Eq (get current "id"))];
    regs ← find "registration" [];
    es ← find "event" [("organizer_user_id", Eq (get current "id"))];
    mret {| teams := ts; events := es; registrations := regs |}.

Definition my_notifications (current : doc) : M (list doc) :=
  find "notification" [("user_id", Eq (get current "id"))].

Definition admin_overview (current : doc) : M Overview :=
  if bool_decide (get current "role" ≠ VStr "admin") then
    raise (HTTPException 403 "Admins only")
  else
    u ← count_documents "user" [];
    a ← count_documents "athleteprofile" [];
    t ← count_documents "team" [];
    e ← count_documents "event" [];
    r ← count_documents "registration" [];
    mret {| users := u; athletes := a; n_teams := t; n_events := e;
            n_registrations := r |}.

End Reads.

(** ** Histories *)

Section Histories.

Variable hash_password : string → string.
Variable create_access_token : doc → string.
Variable py_str : value → string.
Variable isoformat_date : Z → string.

(** The stores a given store can become: requests served one after the
    other, inserts of any collection failing or working again in between. *)
Inductive evolves (db : Db) : Db → Prop :=
| evolves_refl : evolves db db
| evolves_request db' r :
    evolves db db' →
    evolves db (handle hash_password create_access_token py_str
                  isoformat_date r db').2
| evolves_outage db' R :
    evolves db db' → evolves db (mkDb (colls db') (next_id db') R).

End Histories.

(** ** Vocabulary of the properties *)

(** The first document of collection [c] whose field [k] is [v]: what
    [db[c].find_one({k: v})] returns. *)
Definition lookup_by (c k : string) (v : value) (db : Db) : option doc :=
  List.find (matches [(k, Eq v)]) (coll c db).

(** The profile [GET /athletes/{athlete_id}] resolves: by [id], else by
    [_id]. *)
Definition athlete_of (athlete_id : string) (db : Db) : option doc :=
  py_or (lookup_by "athleteprofile" "id" (VStr athlete_id) db)
        (lookup_by "athleteprofile" "_id" (VStr athlete_id) db).

(** A document that has every field of a schema. *)
Definition conforms (fields : list string) (d : doc) : Prop :=
  ∀ k, k ∈ fields → is_Some (d !! k).

Definition athleteprofile_fields : list string :=
  ["user_id"; "sport"; "position"; "bio"; "height_cm"; "weight_kg"; "stats";
   "achievements"; "media"; "recent_performance"].

(** The registration of [user_id] for [event_id], and the registrations of
    an event that hold a place. *)
Definition registration_of (event_id : string) (user_id : value) (db : Db)
  : option doc :=
  List.find (matches [("event_id", Eq (VStr event_id)); ("user_id", Eq user_id)])
            (coll "registration" db).

Definition holds_place (event_id : value) (r : doc) : bool :=
  bool_decide (get r "event_id" = event_id)
  && bool_decide (get r "status" ∈ [VStr "pending"; VStr "confirmed"]).

Definition is_confirmed (event_id : value) (r : doc) : bool :=
  bool_decide (get r "event_id" = event_id)
  && bool_decide (get r "status" = VStr "confirmed").

Definition places_taken (event_id : value) (db : Db) : nat :=
  length (List.filter (holds_place event_id) (coll "registration" db)).

Definition confirmed_count (event_id : value) (db : Db) : nat :=
  length (List.filter (is_confirmed event_id) (coll "registration" db)).

(** What [register_event] reads as the capacity of an event, the status it
    gives a new registration, and the registration it builds. *)
Definition capacity_of (evt : doc) : result Z :=
  py_int (get_or evt "capacity" (VInt 100)).

Definition status_for (event_id : string) (capacity : Z) (db : Db) : string :=
  if bool_decide (Z.of_nat (places_taken (VStr event_id) db) < capacity)%Z
  then "confirmed" else "waitlisted".

Definition registration_doc (event_id uid status : string) : doc :=
  list_to_map
    [("event_id", VStr event_id); ("user_id", VStr uid); ("status", VStr status)].

(** The rest of [register_event] once the registration [rid] is written:
    notify the organizer, then read the registration back. *)
Definition notify_and_return (py_str : value → string) (evt : doc)
    (rid : string) (reg : doc) : M doc :=
  title ← getitem evt "title";
  notif ← lift (NotificationSchema (get evt "organizer_user_id")
                  "event_update" "New Registration"
                  ("New registration for " +:+ py_str title));
  create_document "notification" notif;;
  stored_reg ← find_one "registration" [("id", Eq (VStr rid))];
  mret (doc_or stored_reg (<["id" := VStr rid]> reg)).

(** What [list_events] matches: the events of the sport asked for, or every
    event when no sport, or an empty one, is given. *)
Definition events_of (sport : option string) (db : Db) : list doc :=
  match sport with
  | Some (String a s) =>
      List.filter (λ e, bool_decide (get e "sport" = VStr (String a s)))
                  (coll "event" db)
  | _ => coll "event" db
  end.

(** The user document [register] builds, the claims it signs and the
    answer it gives. *)
Definition new_user (hash_password : string → string)
    (payload : RegisterPayload) : doc :=
  list_to_map
    [("email", VStr (rp_email payload));
     ("password_hash", VStr (hash_password (rp_password payload)));
     ("name", VStr (rp_name payload)); ("role", VStr (rp_role payload));
     ("avatar_url", VNone); ("location", VNone); ("is_active", VBool true);
     ("privacy", VStr "public")].

Definition claims_of (uid : string) (payload : RegisterPayload) : doc :=
  list_to_map [("sub", VStr uid); ("email", VStr (rp_email payload));
               ("role", VStr (rp_role payload))].

Definition bearer_token (create_access_token : doc → string) (claims : doc)
  : doc :=
  list_to_map [("access_token", VStr (create_access_token claims));
               ("token_type", VStr "bearer")].

(** The notification [register_event] sends to the organizer of an event. *)
Definition registration_notice (py_str : value → string) (rid organizer : string)
    (title : value) : doc :=
  stored rid
    (list_to_map
       [("user_id", VStr organizer); ("type", VStr "event_update");
        ("title", VStr "New Registration");
        ("body", VStr ("New registration for " +:+ py_str title));
        ("read", VBool false)]).

(** The collections no route updates in place. *)
Definition kept_whole : list string :=
  ["user"; "event"; "registration"; "moderation"].

(** Every identifier found in collection [c] was generated by the store. *)
Definition ids_generated (c : string) (db : Db) : Prop :=
  ∀ d n, d ∈ coll c db → get d "id" = VStr (oid n) → n < next_id db.

(** What sequential execution maintains about events and registrations:
    event identifiers come from the store and events carry an integer
    capacity, events with one identifier agree on it, every registration is
    for an event of the store, and the confirmed registrations of an event
    number at most its capacity, or none when the capacity is negative. *)
Record consistent (db : Db) : Prop := {
  events_generated :
    ∀ e, e ∈ coll "event" db →
         ∃ n c, n < next_id db ∧ e !! "id" = Some (VStr (oid n))
                ∧ e !! "capacity" = Some (VInt c);
  events_agree :
    ∀ e e', e ∈ coll "event" db → e' ∈ coll "event" db →
            get e "id" = get e' "id" → e !! "capacity" = e' !! "capacity";
  registrations_refer :
    ∀ r, r ∈ coll "registration" db →
         ∃ e, e ∈ coll "event" db ∧ get r "event_id" = get e "id";
  registrations_generated : ids_generated "registration" db;
  capacity_kept :
    ∀ e c, e ∈ coll "event" db → e !! "capacity" = Some (VInt c) →
           (Z.of_nat (confirmed_count (get e "id") db) ≤ Z.max 0 c)%Z;
}.

(** Collection [c] of [db'] is that of [db] with documents added at the
    end: nothing removed, nothing changed. *)
Definition grows (c : string) (db db' : Db) : Prop :=
  ∃ added, coll c db' = coll c db ++ added.

(** A computation that at most adds documents to collection [c], whether
    it returns or raises. *)
Definition appends (c : string) {A} (m : M A) : Prop :=
  ∀ db, grows c db (m db).2.

(** A store with the events and registrations of another, later one. *)
Definition same_bookings (db db' : Db) : Prop :=
  coll "event" db' = coll "event" db
  ∧ coll "registration" db' = coll "registration" db
  ∧ next_id db ≤ next_id db'.

(** A computation that leaves events and registrations alone, whether it
    returns or raises. *)
Definition frame {A} (m : M A) : Prop := ∀ db, same_bookings db (m db).2.

(** Running a computation from a store: [Φ] holds of what it returns or
    raises and of the store it leaves. *)
Definition wp {A} (m : M A) (Φ : result A → Db → Prop) (db : Db) : Prop :=
  Φ (m db).1 (m db).2.

(** ** Sample stores *)

Module Sample.

Definition hash (s : string) : string := "$2b$" +:+ s.
Definition token (claims : doc) : string := "jwt".
Definition str (v : value) : string :=
  match v with
  | VStr s => s
  | _ => "None"
  end.
Definition isodate (t : Z) : string := "1970-01-01".

(** A user with a privacy tier set, and that user's profile. *)
Definition owner (tier : string) : doc :=
  list_to_map [("id", VStr "u1"); ("email", VStr "ann@sportex.io");
               ("role", VStr "athlete"); ("privacy", VStr tier)].

Definition profile : doc :=
  list_to_map
    [("id", VStr "p1"); ("user_id", VStr "u1"); ("sport", VStr "soccer");
     ("position", VStr "M"); ("bio", VStr "Left foot."); ("height_cm", VInt 180);
     ("weight_kg", VInt 75); ("stats", VDict [("apg", VInt 3)]);
     ("achievements", VList [VStr "MVP"]); ("media", VList []);
     ("recent_performance", VList [])].

Definition profiles_db (tier : string) : Db :=
  mkDb (list_to_map [("user", [owner tier]); ("athleteprofile", [profile])]) 2 ∅.

Definition stranger : doc :=
  list_to_map [("id", VStr "u2"); ("role", VStr "coach")].

Definition admin : doc :=
  list_to_map [("id", VStr "u3"); ("role", VStr "admin")].

(** A profile whose user is gone from the user collection. *)
Definition orphan_db : Db :=
  mkDb (list_to_map [("athleteprofile", [profile])]) 2 ∅.

(** Stores built by calling the API on the empty store. *)
Definition api : request → M (option doc) := handle hash token str isodate.

Definition run (rs : list request) (db : Db) : Db :=
  foldl (λ db r, (api r db).2) db rs.

Definition bearer (uid : string) : doc := {["sub" := VStr uid]}.

Definition signup (name role : string) : request :=
  PostAuthRegister
    {| rp_email := name +:+ "@sportex.io"; rp_password := "pw";
       rp_name := name; rp_role := role |}.

Definition cup (capacity : Z) : EventCreate :=
  {| ec_title := "Cup"; ec_sport := "soccer"; ec_description := None;
     ec_location := "Austin, TX"; ec_starts_at := 100; ec_ends_at := 200;
     ec_capacity := capacity |}.

(** Users "0" (coach) and "1" (admin); the coach's team "2". *)
Definition roster_db : Db :=
  run [signup "carla" "coach"; signup "root" "admin";
       PostTeams (bearer "0")
         {| tc_name := "Hawks"; tc_sport := "soccer"; tc_location := None |}]
      empty_db.

(** Users "0" (organizer), "1" and "2" (athletes); the organizer's event "3"
    of the given capacity. *)
Definition event_db (capacity : Z) : Db :=
  run [signup "omar" "organizer"; signup "ann" "athlete";
       signup "bob" "athlete"; PostEvents (bearer "0") (cup capacity)]
      empty_db.

(** The same store while inserts of notifications fail. *)
Definition outage_db (capacity : Z) : Db :=
  mkDb (colls (event_db capacity)) (next_id (event_db capacity))
       {["notification"]}.

(** After user "1" registered for event "3": registration "4" and the
    organizer's notification "5". *)
Definition inbox_db : Db := run [PostEventsRegister (bearer "1") "3"] (event_db 2).

Definition user (db : Db) (uid : string) : doc :=
  default ∅ (lookup_by "user" "id" (VStr uid) db).

(** A [verify] that accepts exactly what [hash] produced. *)
Definition verify (password : string) (hashed : value) : result bool :=
  Ok (bool_decide (hashed = VStr (hash password))).

Definition ann : RegisterPayload :=
  {| rp_email := "ann@sportex.io"; rp_password := "pw"; rp_name := "ann";
     rp_role := "athlete" |}.

Definition hawks : TeamCreate :=
  {| tc_name := "Hawks"; tc_sport := "soccer"; tc_location := None |}.

End Sample.

(** ** Properties *)

Section Lookups.

Lemma find_none_iff {A} (f : A → bool) (l : list A) :
  List.find f l = None ↔ ∀ x, x ∈ l → f x = false.
Proof.
  induction l as [|a l IH]; simpl.
  - split; [intros _ x Hx; inversion Hx | done].
  - destruct (f a) eqn:Ha.
    + split; [done | intros H; specialize (H a (list_elem_of_here _ _)); congruence].
    + rewrite IH. split.
      * intros H x [->|Hx]%elem_of_cons; [done | by apply H].
      * intros H x Hx. apply H. by constructor.
Qed.

Lemma find_matches (q : query) (l : list doc) (d : doc) :
  List.find (matches q) l = Some d → d ∈ l ∧ matches q d = true.
Proof.
  intros H. apply List.find_some in H as [Hin Hm].
  split; [by apply list_elem_of_In | done].
Qed.

Lemma matches_cons (k : string) (c : cond) (q : query) (d : doc) :
  matches ((k, c) :: q) d = holds d (k, c) && matches q d.
Proof. reflexivity. Qed.

Lemma matches_eq_str (k s : string) (q : query) (d : doc) :
  matches ((k, Eq (VStr s)) :: q) d = true → d !! k = Some (VStr s).
Proof.
  rewrite matches_cons. intros [H _]%andb_prop.
  unfold holds, get in H. simpl in H. apply bool_decide_eq_true_1 in H.
  destruct (d !! k); simpl in H; congruence.
Qed.

Lemma matches_eq_str_nonempty (k s : string) (q : query) (d : doc) :
  matches ((k, Eq (VStr s)) :: q) d = true → d ≠ ∅.
Proof.
  intros H%matches_eq_str ->. by rewrite lookup_empty in H.
Qed.

Lemma lookup_by_str_truthy (c k s : string) (db : Db) (d : doc) :
  lookup_by c k (VStr s) db = Some d → truthy_doc (Some d) = true.
Proof.
  intros [_ H]%find_matches. apply bool_decide_eq_true_2.
  by eapply matches_eq_str_nonempty.
Qed.

Lemma athlete_of_truthy (athlete_id : string) (db : Db) (d : doc) :
  athlete_of athlete_id db = Some d → truthy_doc (Some d) = true.
Proof.
  unfold athlete_of, py_or. intros H.
  destruct (truthy_doc (lookup_by "athleteprofile" "id" _ db)) eqn:E.
  - by rewrite <- H.
  - by eapply lookup_by_str_truthy.
Qed.

Lemma lookup_project (keys : list string) (d : doc) (k : string) :
  project keys d !! k = if bool_decide (k ∈ keys) then d !! k else None.
Proof.
  induction keys as [|a keys IH]; simpl.
  - by rewrite lookup_empty.
  - destruct (decide (k = a)) as [->|Hne].
    + rewrite (bool_decide_eq_true_2 (a ∈ a :: keys)) by set_solver.
      destruct (d !! a) eqn:Ha.
      * by rewrite lookup_insert_eq.
      * rewrite IH. by case_bool_decide.
    + assert (project keys d !! k =
              if bool_decide (k ∈ a :: keys) then d !! k else None) as <-.
      { rewrite IH. apply (f_equal (λ b : bool, if b then d !! k else None)).
        apply bool_decide_ext. set_solver. }
      destruct (d !! a); [by rewrite lookup_insert_ne | done].
Qed.

End Lookups.

Section Visibility.

(** What [get_athlete] does once the profile is resolved. *)
Lemma get_athlete_resolved (athlete_id : string) (current profile : doc)
    (db : Db) :
  athlete_of athlete_id db = Some profile →
  get_athlete athlete_id current db =
    let owner_id := get profile "user_id" in
    let privacy :=
      get_or (doc_or (lookup_by "user" "id" owner_id db) ∅) "privacy"
             (VStr "public") in
    let hidden := bool_decide (get current "id" ≠ owner_id)
                  && bool_decide (get current "role" ≠ VStr "admin") in
    if bool_decide (privacy = VStr "private") && hidden
    then (Raise (HTTPException 403 "Profile is private"), db)
    else if bool_decide (privacy = VStr "limited") && hidden
    then (Ok (project limited_fields profile), db)
    else (Ok profile, db).
Proof.
  intros Hp. pose proof (athlete_of_truthy _ _ _ Hp) as Ht.
  unfold athlete_of, py_or, lookup_by in *.
  unfold get_athlete, mbind, M_bind, find_one.
  destruct (truthy_doc (List.find (matches [("id", Eq (VStr athlete_id))])
                          (coll "athleteprofile" db))) eqn:E;
    unfold mret, M_ret; rewrite Hp; unfold if_found; rewrite Ht;
    rewrite <- !andb_assoc; cbv zeta; repeat case_match; reflexivity.
Qed.

(** C4.  A stored athlete profile whose owner's privacy tier is "limited"
    is returned to a requester who is neither the owner nor an admin as a
    record with exactly the fields sport, position, stats, achievements and
    media, each as stored; every other field is stripped. *)
Theorem limited_profile_fields (db : Db) (athlete_id : string)
    (current profile owner : doc) :
  athlete_of athlete_id db = Some profile →
  conforms athleteprofile_fields profile →
  lookup_by "user" "id" (get profile "user_id") db = Some owner →
  owner !! "privacy" = Some (VStr "limited") →
  get current "id" ≠ get profile "user_id" →
  get current "role" ≠ VStr "admin" →
  ∃ d, get_athlete athlete_id current db = (Ok d, db)
       ∧ dom d = {["sport"; "position"; "stats"; "achievements"; "media"]}
       ∧ (∀ k, k ∈ limited_fields → d !! k = profile !! k)
       ∧ (∀ k, k ∉ limited_fields → d !! k = None).
Proof.
  intros Hp Hc Ho Hpriv Hid Hrole.
  exists (project limited_fields profile).
  rewrite (get_athlete_resolved _ _ _ _ Hp). cbv zeta.
  rewrite Ho. unfold doc_or.
  assert (owner ≠ ∅) as Hne by (intros ->; by rewrite lookup_empty in Hpriv).
  rewrite (bool_decide_eq_true_2 _ Hne).
  unfold get_or. rewrite Hpriv. cbn [from_option id].
  rewrite (bool_decide_eq_true_2 _ Hid), (bool_decide_eq_true_2 _ Hrole).
  rewrite (bool_decide_eq_false_2 (VStr "limited" = VStr "private")) by done.
  rewrite (bool_decide_eq_true_2 (VStr "limited" = VStr "limited")) by done.
  cbn [andb]. split; [done|].
  assert (∀ k, k ∈ limited_fields → project limited_fields profile !! k
                                      = profile !! k) as Hin.
  { intros k Hk. rewrite lookup_project. by rewrite bool_decide_eq_true_2. }
  assert (∀ k, k ∉ limited_fields → project limited_fields profile !! k = None)
    as Hout.
  { intros k Hk. rewrite lookup_project. by rewrite bool_decide_eq_false_2. }
  split; [|done].
  apply set_eq. intros k. rewrite elem_of_dom.
  destruct (decide (k ∈ limited_fields)) as [Hk|Hk].
  - rewrite (Hin k Hk). split.
    + intros _. unfold limited_fields in Hk. set_solver.
    + intros _. apply Hc. unfold limited_fields, athleteprofile_fields in *.
      set_solver.
  - rewrite (Hout k Hk). split.
    + by intros [? ?].
    + intros Hk'. exfalso. apply Hk. unfold limited_fields. set_solver.
Qed.

Lemma limited_profile_fields_witness :
  ∃ d, get_athlete "p1" Sample.stranger (Sample.profiles_db "limited")
       = (Ok d, Sample.profiles_db "limited")
       ∧ dom d = {["sport"; "position"; "stats"; "achievements"; "media"]}
       ∧ (∀ k, k ∈ limited_fields → d !! k = Sample.profile !! k)
       ∧ (∀ k, k ∉ limited_fields → d !! k = None).
Proof.
  apply (limited_profile_fields (Sample.profiles_db "limited") "p1"
           Sample.stranger Sample.profile (Sample.owner "limited")).
  - vm_compute. reflexivity.
  - intros k Hk. unfold athleteprofile_fields in Hk.
    repeat (apply elem_of_cons in Hk as [->|Hk]; [vm_compute; eauto|]).
    inversion Hk.
  - vm_compute. reflexivity.
  - vm_compute. reflexivity.
  - vm_compute. discriminate.
  - vm_compute. discriminate.
Defined.

(** C5.  A stored athlete profile whose owner's privacy tier is "private"
    is refused with Forbidden (403) to a requester who is neither the owner
    nor an admin: no profile data is returned and the store is untouched. *)
Theorem private_profile_forbidden (db : Db) (athlete_id : string)
    (current profile owner : doc) :
  athlete_of athlete_id db = Some profile →
  lookup_by "user" "id" (get profile "user_id") db = Some owner →
  owner !! "privacy" = Some (VStr "private") →
  get current "id" ≠ get profile "user_id" →
  get current "role" ≠ VStr "admin" →
  get_athlete athlete_id current db
  = (Raise (HTTPException 403 "Profile is private"), db).
Proof.
  intros Hp Ho Hpriv Hid Hrole.
  rewrite (get_athlete_resolved _ _ _ _ Hp). cbv zeta.
  rewrite Ho. unfold doc_or.
  assert (owner ≠ ∅) as Hne by (intros ->; by rewrite lookup_empty in Hpriv).
  rewrite (bool_decide_eq_true_2 _ Hne).
  unfold get_or. rewrite Hpriv. cbn [from_option id].
  rewrite (bool_decide_eq_true_2 _ Hid), (bool_decide_eq_true_2 _ Hrole).
  by rewrite (bool_decide_eq_true_2 (VStr "private" = VStr "private")).
Qed.

Lemma private_profile_forbidden_witness :
  get_athlete "p1" Sample.stranger (Sample.profiles_db "private")
  = (Raise (HTTPException 403 "Profile is private"),
     Sample.profiles_db "private").
Proof.
  apply (private_profile_forbidden (Sample.profiles_db "private") "p1"
           Sample.stranger Sample.profile (Sample.owner "private")).
  - vm_compute. reflexivity.
  - vm_compute. reflexivity.
  - vm_compute. reflexivity.
  - vm_compute. discriminate.
  - vm_compute. discriminate.
Defined.

(** C6.  A requester whose role is admin, and likewise the owner of the
    profile, gets the stored record in full, whatever the user collection
    says about the owner's privacy tier. *)
Theorem admin_or_owner_sees_full_profile (db : Db) (athlete_id : string)
    (current profile : doc) :
  athlete_of athlete_id db = Some profile →
  get current "role" = VStr "admin"
  ∨ get current "id" = get profile "user_id" →
  get_athlete athlete_id current db = (Ok profile, db).
Proof.
  intros Hp Hwho.
  rewrite (get_athlete_resolved _ _ _ _ Hp). cbv zeta.
  assert (bool_decide (get current "id" ≠ get profile "user_id")
          && bool_decide (get current "role" ≠ VStr "admin") = false) as ->.
  { destruct Hwho as [H|H].
    - rewrite (bool_decide_eq_false_2 (get current "role" ≠ _)) by auto.
      apply andb_false_r.
    - by rewrite (bool_decide_eq_false_2 (get current "id" ≠ _)) by auto. }
  by rewrite !andb_false_r.
Qed.

Lemma admin_or_owner_sees_full_profile_witness :
  get_athlete "p1" Sample.admin (Sample.profiles_db "private")
  = (Ok Sample.profile, Sample.profiles_db "private").
Proof.
  apply (admin_or_owner_sees_full_profile (Sample.profiles_db "private") "p1"
           Sample.admin Sample.profile).
  - vm_compute. reflexivity.
  - left. vm_compute. reflexivity.
Defined.

(** C10.  When no document of the user collection has the profile's
    [user_id] as its [id], the privacy tier reads as "public" and every
    authenticated caller gets the stored record in full. *)
Theorem ownerless_profile_is_public (db : Db) (athlete_id : string)
    (current profile : doc) :
  athlete_of athlete_id db = Some profile →
  (∀ u, u ∈ coll "user" db → get u "id" ≠ get profile "user_id") →
  get_athlete athlete_id current db = (Ok profile, db).
Proof.
  intros Hp Hnone.
  rewrite (get_athlete_resolved _ _ _ _ Hp). cbv zeta.
  assert (lookup_by "user" "id" (get profile "user_id") db = None) as ->.
  { apply find_none_iff. intros u Hu. rewrite matches_cons.
    unfold holds. cbn [fst snd].
    by rewrite (bool_decide_eq_false_2 _ (Hnone u Hu)). }
  unfold doc_or, get_or. rewrite lookup_empty. cbn [from_option id].
  rewrite (bool_decide_eq_false_2 (VStr "public" = VStr "private")) by done.
  by rewrite (bool_decide_eq_false_2 (VStr "public" = VStr "limited")).
Qed.

Lemma ownerless_profile_is_public_witness :
  get_athlete "p1" Sample.stranger Sample.orphan_db
  = (Ok Sample.profile, Sample.orphan_db).
Proof.
  apply (ownerless_profile_is_public Sample.orphan_db "p1" Sample.stranger
           Sample.profile).
  - vm_compute. reflexivity.
  - intros u Hu. vm_compute in Hu. inversion Hu.
Defined.

End Visibility.

(** ** Stepping through a handler *)

Section Stepping.

Context {A B : Type}.
Implicit Types (Φ : result A → Db → Prop) (db : Db).

Lemma wp_run (m : M A) Φ db : wp m Φ db → ∃ r db', m db = (r, db') ∧ Φ r db'.
Proof. unfold wp. destruct (m db) as [r db']. eauto. Qed.

Lemma wp_bind (m : M B) (k : B → M A) Φ db :
  wp m (λ r db', match r with
                 | Ok b => wp (k b) Φ db'
                 | Raise e => Φ (Raise e) db'
                 end) db →
  wp (m ≫= k) Φ db.
Proof. unfold wp, mbind, M_bind. by destruct (m db) as [[b|e] db']. Qed.

Lemma wp_ret (a : A) Φ db : Φ (Ok a) db → wp (mret a) Φ db.
Proof. done. Qed.

Lemma wp_raise (e : exn) Φ db : Φ (Raise e) db → wp (raise e) Φ db.
Proof. done. Qed.

Lemma wp_lift (r : result A) Φ db : Φ r db → wp (lift r) Φ db.
Proof. done. Qed.

End Stepping.

Section SteppingStore.

Lemma wp_find_one (c : string) (q : query) Φ db :
  Φ (Ok (List.find (matches q) (coll c db))) db → wp (find_one c q) Φ db.
Proof. done. Qed.

Lemma wp_count_documents (c : string) (q : query) Φ db :
  Φ (Ok (length (List.filter (matches q) (coll c db)))) db →
  wp (count_documents c q) Φ db.
Proof. done. Qed.

Lemma wp_update_one (c : string) (q : query) (fields : doc) Φ db :
  Φ (Ok ()) (set_coll c (set_first q fields (coll c db)) db) →
  wp (update_one c q fields) Φ db.
Proof. done. Qed.

Lemma wp_create_document (c : string) (data : doc) Φ db :
  (c ∈ rejecting db → Φ (Raise StoreError) db) →
  (c ∉ rejecting db →
   Φ (Ok (oid (next_id db))) (add_doc c (stored (oid (next_id db)) data) db)) →
  wp (create_document c data) Φ db.
Proof.
  intros Hrej Hok. unfold wp, create_document.
  case_bool_decide; [by apply Hrej | by apply Hok].
Qed.

Lemma wp_getitem (d : doc) (k : string) Φ db :
  match d !! k with
  | Some v => Φ (Ok v) db
  | None => Φ (Raise (KeyError k)) db
  end →
  wp (getitem d k) Φ db.
Proof. unfold getitem. by destruct (d !! k). Qed.

Lemma coll_add_doc (c c' : string) (d : doc) (db : Db) :
  coll c' (add_doc c d db) = if decide (c = c') then coll c db ++ [d] else coll c' db.
Proof.
  unfold coll at 1, add_doc. cbn [colls]. rewrite lookup_insert.
  by destruct (decide (c = c')) as [<-|].
Qed.

Lemma coll_set_coll (c c' : string) (l : list doc) (db : Db) :
  coll c' (set_coll c l db) = if decide (c = c') then l else coll c' db.
Proof.
  unfold coll at 1, set_coll. cbn [colls]. rewrite lookup_insert.
  by destruct (decide (c = c')).
Qed.

Lemma find_set_first (q : query) (fields : doc) (l : list doc) (d : doc) :
  List.find (matches q) l = Some d →
  matches q (fields ∪ d) = true →
  List.find (matches q) (set_first q fields l) = Some (fields ∪ d).
Proof.
  intros Hf Hm. induction l as [|x l IH]; [done|].
  cbn [List.find set_first] in *. destruct (matches q x) eqn:Hx.
  - injection Hf as ->. cbn [List.find]. by rewrite Hm.
  - cbn [List.find]. rewrite Hx. by apply IH.
Qed.

Lemma find_app_None {X} (f : X → bool) (l1 l2 : list X) :
  List.find f l1 = None → List.find f (l1 ++ l2) = List.find f l2.
Proof.
  induction l1 as [|x l1 IH]; [done|]. cbn [List.find app].
  destruct (f x); [done | exact IH].
Qed.

Lemma find_app_Some {X} (f : X → bool) (l1 l2 : list X) (x : X) :
  List.find f l1 = Some x → List.find f (l1 ++ l2) = Some x.
Proof.
  induction l1 as [|y l1 IH]; [done|]. cbn [List.find app].
  destruct (f y); [done | exact IH].
Qed.

End SteppingStore.

Ltac wp_step :=
  first [ apply wp_bind
        | apply wp_ret
        | apply wp_raise
        | apply wp_lift
        | apply wp_find_one
        | apply wp_count_documents
        | apply wp_update_one
        | apply wp_getitem ].

(** ** Notifications and rosters *)

Section Notifications.

(** C9, as the code has it.  [mark_read] never looks at the caller: for any
    caller, recipient or not, the notification with the given id gets its
    read flag set and the call answers ok. *)
Theorem mark_read_by_any_caller (db : Db) (notif_id : string)
    (current n : doc) :
  lookup_by "notification" "id" (VStr notif_id) db = Some n →
  ∃ db', mark_read notif_id current db = (Ok {["ok" := VBool true]}, db')
         ∧ lookup_by "notification" "id" (VStr notif_id) db'
           = Some (<["read" := VBool true]> n).
Proof.
  intros Hn. eexists. split; [reflexivity|].
  unfold lookup_by. rewrite coll_set_coll, decide_True by done.
  rewrite insert_union_singleton_l. apply find_set_first; [exact Hn|].
  apply find_matches in Hn as [_ Hm].
  rewrite matches_cons in *. unfold holds, get in *. cbn [fst snd] in *.
  rewrite lookup_union_r; [done|]. by apply lookup_singleton_ne.
Qed.

Lemma mark_read_by_any_caller_witness :
  ∃ db', mark_read "5" (Sample.user Sample.inbox_db "2") Sample.inbox_db
         = (Ok {["ok" := VBool true]}, db')
         ∧ lookup_by "notification" "id" (VStr "5") db'
           = Some (<["read" := VBool true]>
                     (default ∅ (lookup_by "notification" "id" (VStr "5")
                                   Sample.inbox_db))).
Proof.
  apply (mark_read_by_any_caller Sample.inbox_db "5").
  reflexivity.
Defined.

(** C9, as stated, fails: user "2" is not the recipient of notification
    "5" (addressed to the organizer "0") and still flips its read flag. *)
Lemma mark_read_by_stranger :
  let db := Sample.inbox_db in
  let caller := Sample.user db "2" in
  get_current_user (Sample.bearer "2") db = (Ok caller, db)
  ∧ get caller "id" = VStr "2"
  ∧ lookup_by "notification" "id" (VStr "5") db ≫= (.!! "user_id")
    = Some (VStr "0")
  ∧ lookup_by "notification" "id" (VStr "5") db ≫= (.!! "read")
    = Some (VBool false)
  ∧ (mark_read "5" caller db).1 = Ok {["ok" := VBool true]}
  ∧ lookup_by "notification" "id" (VStr "5") (mark_read "5" caller db).2
      ≫= (.!! "read")
    = Some (VBool true).
Proof. cbv zeta. repeat split; reflexivity. Qed.

(** C7, as the code has it.  [add_to_roster] lets a caller through only
    when the caller's role is coach or admin and the caller is the team's
    coach: every other caller, an admin who does not coach the team
    included, is refused with Forbidden and the store is untouched.  A
    caller who passes gets the roster back, extended by the user if new, and
    the stored team carries that roster. *)
Theorem roster_guard (py_str : value → string) (db : Db)
    (team_id user_id : string) (current team : doc) :
  lookup_by "team" "id" (VStr team_id) db = Some team →
  (get current "role" ∉ [VStr "coach"; VStr "admin"]
   ∨ get team "coach_user_id" ≠ get current "id" →
   add_to_roster py_str team_id user_id current db
   = (Raise (HTTPException 403 "Only coach can modify roster"), db))
  ∧ (get current "role" ∈ [VStr "coach"; VStr "admin"] →
     get team "coach_user_id" = get current "id" →
     ∀ roster name,
       team !! "roster_user_ids" = Some (VList roster) →
       team !! "name" = Some name →
       "notification" ∉ rejecting db →
       let roster' := if bool_decide (VStr user_id ∈ roster) then roster
                      else roster ++ [VStr user_id] in
       ∃ db', add_to_roster py_str team_id user_id current db
              = (Ok (list_to_map [("ok", VBool true); ("roster", VList roster')]),
                 db')
              ∧ lookup_by "team" "id" (VStr team_id) db'
                = Some (<["roster_user_ids" := VList roster']> team)).
Proof.
  intros Ht. pose proof (lookup_by_str_truthy _ _ _ _ _ Ht) as Htruthy.
  assert (Hunfold : ∀ rest : doc → M doc,
    (found ← find_one "team" [("id", Eq (VStr team_id))];
     match if_found found with
     | None => raise (HTTPException 404 "Team not found")
     | Some t => rest t
     end) db = rest team db).
  { intros rest. unfold mbind, M_bind, find_one. fold (lookup_by "team" "id" (VStr team_id) db).
    rewrite Ht. unfold if_found. by rewrite Htruthy. }
  split.
  - intros Hbad. unfold add_to_roster. rewrite Hunfold.
    assert (negb (py_in (get current "role") [VStr "coach"; VStr "admin"])
            || bool_decide (get team "coach_user_id" ≠ get current "id") = true)
      as ->; [|done].
    unfold py_in. destruct Hbad as [H|H].
    + by rewrite (bool_decide_eq_false_2 _ H).
    + rewrite (bool_decide_eq_true_2 _ H). apply orb_true_r.
  - intros Hrole Hcoach roster name Hroster Hname Hup roster'.
    unfold add_to_roster. rewrite Hunfold.
    unfold py_in at 1. rewrite (bool_decide_eq_true_2 _ Hrole).
    rewrite (bool_decide_eq_false_2 (get team "coach_user_id" ≠ _)) by auto.
    cbn [negb orb]. unfold get_or. rewrite Hroster. cbn [from_option id].
    unfold py_in, roster'. case_bool_decide as Hin; cbn [negb].
    + eexists. split; [reflexivity|]. rewrite Ht. f_equal.
      symmetry. by apply insert_id.
    + unfold mbind, M_bind, update_one, getitem. rewrite Hname.
      unfold mret, M_ret, lift, NotificationSchema. cbn [mbind result_bind str_field].
      unfold literal_field. rewrite bool_decide_eq_true_2 by set_solver.
      cbn [mbind result_bind mret result_ret]. unfold create_document.
      cbn [rejecting set_coll]. rewrite (bool_decide_eq_false_2 _ Hup).
      eexists. split; [reflexivity|].
      unfold lookup_by. rewrite coll_add_doc, decide_False by done.
      rewrite coll_set_coll, decide_True by done.
      rewrite insert_union_singleton_l. apply find_set_first; [exact Ht|].
      apply find_matches in Ht as [_ Hm].
      rewrite matches_cons in *. unfold holds, get in *. cbn [fst snd] in *.
      rewrite lookup_union_r; [done|]. by apply lookup_singleton_ne.
Qed.

Lemma roster_guard_witness :
  let db := Sample.roster_db in
  let team := default ∅ (lookup_by "team" "id" (VStr "2") db) in
  let current := Sample.user db "0" in
  (get current "role" ∉ [VStr "coach"; VStr "admin"]
   ∨ get team "coach_user_id" ≠ get current "id" →
   add_to_roster Sample.str "2" "7" current db
   = (Raise (HTTPException 403 "Only coach can modify roster"), db))
  ∧ (get current "role" ∈ [VStr "coach"; VStr "admin"] →
     get team "coach_user_id" = get current "id" →
     ∀ roster name,
       team !! "roster_user_ids" = Some (VList roster) →
       team !! "name" = Some name →
       "notification" ∉ rejecting db →
       let roster' := if bool_decide (VStr "7" ∈ roster) then roster
                      else roster ++ [VStr "7"] in
       ∃ db', add_to_roster Sample.str "2" "7" current db
              = (Ok (list_to_map [("ok", VBool true); ("roster", VList roster')]),
                 db')
              ∧ lookup_by "team" "id" (VStr "2") db'
                = Some (<["roster_user_ids" := VList roster']> team)).
Proof.
  intros db team current.
  apply (roster_guard Sample.str db "2" "7" current team).
  reflexivity.
Defined.

(** C7, as stated, fails: user "1" has role admin, does not coach team "2"
    (user "0" does), and is refused. *)
Lemma admin_refused_on_foreign_roster :
  let db := Sample.roster_db in
  let caller := Sample.user db "1" in
  get_current_user (Sample.bearer "1") db = (Ok caller, db)
  ∧ get caller "role" = VStr "admin"
  ∧ lookup_by "team" "id" (VStr "2") db ≫= (.!! "coach_user_id")
    = Some (VStr "0")
  ∧ add_to_roster Sample.str "2" "7" caller db
    = (Raise (HTTPException 403 "Only coach can modify roster"), db).
Proof. cbv zeta. repeat split; reflexivity. Qed.

End Notifications.

(** ** Registration and capacity *)

Section Registration.

Variable py_str : value → string.

Lemma places_taken_count (event_id : string) (db : Db) :
  length (List.filter
            (matches [("event_id", Eq (VStr event_id));
                      ("status", In_ [VStr "pending"; VStr "confirmed"])])
            (coll "registration" db))
  = places_taken (VStr event_id) db.
Proof.
  unfold places_taken. f_equal. apply List.filter_ext. intros r.
  unfold matches, holds_place, holds. cbn [forallb fst snd].
  by rewrite andb_true_r.
Qed.

Lemma registration_doc_valid (event_id uid : string) (capacity : Z) (db : Db) :
  RegistrationSchema event_id (VStr uid) (status_for event_id capacity db)
  = Ok (registration_doc event_id uid (status_for event_id capacity db)).
Proof. unfold status_for. by case_bool_decide. Qed.

(** [register_event] once the event is found. *)
Lemma register_event_found (db : Db) (event_id : string) (current evt : doc) :
  lookup_by "event" "id" (VStr event_id) db = Some evt →
  register_event py_str event_id current db
  = match if_found (registration_of event_id (get current "id") db) with
    | Some reg0 => (Ok reg0, db)
    | None =>
        match capacity_of evt with
        | Raise e => (Raise e, db)
        | Ok capacity =>
            match RegistrationSchema event_id (get current "id")
                    (status_for event_id capacity db) with
            | Raise e => (Raise e, db)
            | Ok reg =>
                if bool_decide ("registration" ∈ rejecting db)
                then (Raise StoreError, db)
                else notify_and_return py_str evt (oid (next_id db)) reg
                       (add_doc "registration"
                          (stored (oid (next_id db)) reg) db)
            end
        end
    end.
Proof.
  intros Hevt.
  pose proof (lookup_by_str_truthy _ _ _ _ _ Hevt) as Htruthy.
  unfold lookup_by, registration_of, capacity_of in *.
  unfold register_event. unfold mbind at 1, M_bind at 1, find_one at 1.
  rewrite Hevt. unfold if_found at 1. rewrite Htruthy.
  unfold mbind at 1, M_bind at 1, find_one at 1.
  destruct (if_found _) as [reg0|]; [done|].
  unfold mbind at 1, M_bind at 1, count_documents at 1.
  rewrite places_taken_count.
  unfold mbind at 1, M_bind at 1, lift at 1.
  destruct (py_int _) as [capacity|e]; [|done].
  fold (status_for event_id capacity db).
  unfold mbind at 1, M_bind at 1, lift at 1.
  destruct (RegistrationSchema _ _ _) as [reg|e]; [|done].
  unfold mbind at 1, M_bind at 1, create_document at 1.
  by case_bool_decide.
Qed.

(** C2 (first half).  A registration that exists for the event and the
    caller is returned as it is, and the store is left as it was. *)
Lemma register_event_existing (db : Db) (event_id : string)
    (current evt reg : doc) :
  lookup_by "event" "id" (VStr event_id) db = Some evt →
  registration_of event_id (get current "id") db = Some reg →
  register_event py_str event_id current db = (Ok reg, db).
Proof.
  intros Hevt Hreg. rewrite (register_event_found _ _ _ _ Hevt), Hreg.
  unfold if_found, truthy_doc. rewrite bool_decide_eq_true_2; [done|].
  apply find_matches in Hreg as [_ Hm]. by eapply matches_eq_str_nonempty.
Qed.

(** Up to the write of the registration. *)
Lemma register_event_first (db : Db) (event_id : string) (current evt : doc)
    (capacity : Z) (uid : string) :
  lookup_by "event" "id" (VStr event_id) db = Some evt →
  registration_of event_id (get current "id") db = None →
  capacity_of evt = Ok capacity →
  get current "id" = VStr uid →
  "registration" ∉ rejecting db →
  let reg := registration_doc event_id uid (status_for event_id capacity db) in
  let rid := oid (next_id db) in
  register_event py_str event_id current db
  = notify_and_return py_str evt rid reg
      (add_doc "registration" (stored rid reg) db).
Proof.
  intros Hevt Hnone Hcap Huid Hrej reg rid.
  pose proof (lookup_by_str_truthy _ _ _ _ _ Hevt) as Htruthy.
  unfold lookup_by, registration_of, capacity_of in *.
  unfold register_event. unfold mbind at 1, M_bind at 1, find_one at 1.
  rewrite Hevt. unfold if_found at 1. rewrite Htruthy.
  unfold mbind at 1, M_bind at 1, find_one at 1. rewrite Hnone.
  unfold if_found at 1. cbn [truthy_doc].
  unfold mbind at 1, M_bind at 1, count_documents at 1.
  rewrite places_taken_count.
  unfold mbind at 1, M_bind at 1, lift at 1. rewrite Hcap.
  fold (status_for event_id capacity db).
  unfold mbind at 1, M_bind at 1, lift at 1. rewrite Huid.
  rewrite registration_doc_valid.
  unfold mbind at 1, M_bind at 1, create_document at 1.
  rewrite (bool_decide_eq_false_2 _ Hrej).
  reflexivity.
Qed.

Lemma notify_and_return_ok (db : Db) (evt : doc) (rid : string) (reg : doc)
    (title : value) (organizer : string) :
  evt !! "title" = Some title →
  get evt "organizer_user_id" = VStr organizer →
  "notification" ∉ rejecting db →
  ∃ notif,
    notify_and_return py_str evt rid reg db
    = (Ok (doc_or (lookup_by "registration" "id" (VStr rid) db)
                  (<["id" := VStr rid]> reg)),
       add_doc "notification" notif db).
Proof.
  intros Htitle Horg Hrej. unfold notify_and_return.
  unfold mbind at 1, M_bind at 1, getitem. rewrite Htitle.
  unfold mret at 1, M_ret at 1. rewrite Horg.
  unfold mbind at 1, M_bind at 1, lift, NotificationSchema.
  cbn [str_field mbind result_bind]. unfold literal_field.
  rewrite bool_decide_eq_true_2 by set_solver.
  cbn [mbind result_bind mret result_ret].
  unfold mbind at 1, M_bind at 1, create_document.
  rewrite (bool_decide_eq_false_2 _ Hrej).
  eexists. unfold mbind, M_bind, find_one, mret, M_ret.
  unfold lookup_by. rewrite coll_add_doc, decide_False by done.
  reflexivity.
Qed.

Lemma notify_and_return_fails (db : Db) (evt : doc) (rid : string) (reg : doc) :
  evt !! "title" = None
  ∨ (∀ s, get evt "organizer_user_id" ≠ VStr s)
  ∨ "notification" ∈ rejecting db →
  ∃ e, notify_and_return py_str evt rid reg db = (Raise e, db).
Proof.
  intros Hfail. unfold notify_and_return.
  unfold mbind at 1, M_bind at 1, getitem.
  destruct (evt !! "title") as [title|] eqn:Htitle; [|by eexists].
  unfold mret at 1, M_ret at 1.
  unfold mbind at 1, M_bind at 1, lift, NotificationSchema.
  destruct (get evt "organizer_user_id") as [| | | |organizer| | |] eqn:Horg;
    cbn [str_field mbind result_bind]; try by eexists.
  unfold literal_field. rewrite bool_decide_eq_true_2 by set_solver.
  cbn [mbind result_bind mret result_ret].
  unfold mbind at 1, M_bind at 1, create_document.
  destruct Hfail as [?|[Hno|Hrej]]; [done | by destruct (Hno organizer) |].
  rewrite (bool_decide_eq_true_2 _ Hrej). by eexists.
Qed.

Lemma notify_and_return_registrations (db : Db) (evt : doc) (rid : string)
    (reg : doc) :
  coll "registration" (notify_and_return py_str evt rid reg db).2
  = coll "registration" db.
Proof.
  assert (∀ e, (notify_and_return py_str evt rid reg db = (Raise e, db)) →
               coll "registration" (notify_and_return py_str evt rid reg db).2
               = coll "registration" db) as Hfails by (by intros e ->).
  destruct (evt !! "title") as [title|] eqn:Htitle;
    [|destruct (notify_and_return_fails db evt rid reg) as [e He]; eauto].
  destruct (decide ("notification" ∈ rejecting db)) as [Hrej|Hrej];
    [destruct (notify_and_return_fails db evt rid reg) as [e He]; eauto|].
  destruct (get evt "organizer_user_id") as [| | | |organizer| | |] eqn:Horg;
    try (destruct (notify_and_return_fails db evt rid reg) as [e He];
         [right; left; intros s; rewrite Horg; discriminate | eauto]).
  destruct (notify_and_return_ok db evt rid reg _ _ Htitle Horg Hrej)
    as [notif ->].
  cbn [snd]. by rewrite coll_add_doc, decide_False.
Qed.

Lemma lookup_generated (c : string) (db : Db) (data : doc) :
  ids_generated c db →
  lookup_by c "id" (VStr (oid (next_id db)))
    (add_doc c (stored (oid (next_id db)) data) db)
  = Some (stored (oid (next_id db)) data).
Proof.
  intros Hgen. unfold lookup_by. rewrite coll_add_doc, decide_True by done.
  rewrite find_app_None.
  - cbn [List.find]. rewrite matches_cons. unfold holds, get, stored.
    cbn [fst snd]. rewrite lookup_insert_eq. cbn [from_option id].
    by rewrite bool_decide_eq_true_2.
  - apply find_none_iff. intros d Hd. rewrite matches_cons.
    unfold holds. cbn [fst snd]. rewrite bool_decide_eq_false_2; [done|].
    intros Hid. specialize (Hgen d _ Hd Hid). lia.
Qed.

(** C1.  When the event exists and the caller has no registration for it,
    the registration written is confirmed if the registrations of the event
    that are pending or confirmed number less than its capacity, and
    waitlisted otherwise; when the organizer's notification goes through,
    that registration is what the caller gets back. *)
Theorem first_registration_status (db : Db) (event_id : string)
    (current evt : doc) (capacity : Z) (uid : string) :
  lookup_by "event" "id" (VStr event_id) db = Some evt →
  registration_of event_id (get current "id") db = None →
  capacity_of evt = Ok capacity →
  get current "id" = VStr uid →
  "registration" ∉ rejecting db →
  let status :=
    if bool_decide (Z.of_nat (places_taken (VStr event_id) db) < capacity)%Z
    then "confirmed" else "waitlisted" in
  let new := stored (oid (next_id db)) (registration_doc event_id uid status) in
  coll "registration" (register_event py_str event_id current db).2
  = coll "registration" db ++ [new]
  ∧ new !! "status" = Some (VStr status)
  ∧ (ids_generated "registration" db →
     is_Some (evt !! "title") →
     (∃ organizer, get evt "organizer_user_id" = VStr organizer) →
     "notification" ∉ rejecting db →
     (register_event py_str event_id current db).1 = Ok new).
Proof.
  intros Hevt Hnone Hcap Huid Hrej status new.
  rewrite (register_event_first db event_id current evt capacity uid)
    by assumption.
  subst new status. fold (status_for event_id capacity db).
  set (rid := oid (next_id db)).
  set (reg := registration_doc event_id uid (status_for event_id capacity db)).
  split; [|split].
  - rewrite notify_and_return_registrations.
    by rewrite coll_add_doc, decide_True.
  - unfold stored, reg, registration_doc.
    rewrite !lookup_insert_ne by done. done.
  - intros Hgen [title Htitle] [organizer Horg] Hnotif.
    destruct (notify_and_return_ok (add_doc "registration" (stored rid reg) db)
                evt rid reg title organizer Htitle Horg Hnotif) as [notif ->].
    cbn [fst]. unfold rid. rewrite lookup_generated by done.
    unfold doc_or. by rewrite bool_decide_eq_true_2.
Qed.

(** C8, as the code has it.  When the organizer's notification cannot be
    created (no title to format, no valid recipient, or the store refuses
    the insert), [register_event] raises, so the request fails; the
    registration written just before stays in the store. *)
Theorem notification_failure_propagates (db : Db) (event_id : string)
    (current evt : doc) (capacity : Z) (uid : string) :
  lookup_by "event" "id" (VStr event_id) db = Some evt →
  registration_of event_id (get current "id") db = None →
  capacity_of evt = Ok capacity →
  get current "id" = VStr uid →
  "registration" ∉ rejecting db →
  evt !! "title" = None
  ∨ (∀ s, get evt "organizer_user_id" ≠ VStr s)
  ∨ "notification" ∈ rejecting db →
  ∃ e, register_event py_str event_id current db
       = (Raise e,
          add_doc "registration"
            (stored (oid (next_id db))
               (registration_doc event_id uid
                  (status_for event_id capacity db))) db).
Proof.
  intros Hevt Hnone Hcap Huid Hrej Hfail.
  rewrite (register_event_first db event_id current evt capacity uid)
    by assumption.
  by apply notify_and_return_fails.
Qed.

(** C2.  When a registration exists for the event and the caller, whatever
    its status, [register_event] returns it unchanged and leaves the store
    as it was: no registration and no notification is added.  Hence a call
    that succeeded, repeated on the store it left, returns the same
    registration and changes nothing; the first of the two calls added at
    most one notification. *)
Theorem register_event_idempotent (db : Db) (event_id : string)
    (current evt : doc) :
  lookup_by "event" "id" (VStr event_id) db = Some evt →
  (∀ reg, registration_of event_id (get current "id") db = Some reg →
          register_event py_str event_id current db = (Ok reg, db))
  ∧ (ids_generated "registration" db →
     ∀ r1 db1,
       register_event py_str event_id current db = (Ok r1, db1) →
       register_event py_str event_id current db1 = (Ok r1, db1)
       ∧ registration_of event_id (get current "id") db1 = Some r1
       ∧ ∃ sent, length sent ≤ 1
                 ∧ coll "notification" db1 = coll "notification" db ++ sent).
Proof.
  intros Hevt. split.
  { intros reg Hreg. by eapply register_event_existing. }
  intros Hgen r1 db1 Hfirst.
  destruct (registration_of event_id (get current "id") db) as [reg0|] eqn:Hreg.
  { rewrite (register_event_existing db _ _ evt reg0) in Hfirst by done.
    injection Hfirst as <- <-. split; [by eapply register_event_existing|].
    split; [done|]. exists []. split; [simpl; lia | by rewrite app_nil_r]. }
  rewrite (register_event_found _ _ _ _ Hevt), Hreg in Hfirst.
  cbn [if_found truthy_doc] in Hfirst.
  destruct (capacity_of evt) as [capacity|e]; [|done].
  destruct (get current "id") as [| | | |uid| | |] eqn:Huid;
    try (unfold RegistrationSchema in Hfirst;
         cbn [str_field mbind result_bind] in Hfirst; done).
  rewrite registration_doc_valid in Hfirst.
  case_bool_decide as Hrej; [done|].
  set (rid := oid (next_id db)) in *.
  set (reg := registration_doc event_id uid (status_for event_id capacity db)) in *.
  set (db' := add_doc "registration" (stored rid reg) db) in *.
  assert (∃ notif, r1 = stored rid reg ∧ db1 = add_doc "notification" notif db')
    as (notif & -> & ->).
  { destruct (evt !! "title") as [title|] eqn:Htitle;
      [|destruct (notify_and_return_fails db' evt rid reg) as [e He]; eauto;
        congruence].
    destruct (decide ("notification" ∈ rejecting db')) as [Hrej'|Hrej'];
      [destruct (notify_and_return_fails db' evt rid reg) as [e He]; eauto;
       congruence|].
    destruct (get evt "organizer_user_id") as [| | | |organizer| | |] eqn:Horg;
      try (destruct (notify_and_return_fails db' evt rid reg) as [e He];
           [right; left; intros s; rewrite Horg; discriminate | congruence]).
    destruct (notify_and_return_ok db' evt rid reg _ _ Htitle Horg Hrej')
      as [notif Hok].
    rewrite Hok in Hfirst. injection Hfirst as <- <-. exists notif.
    unfold db', rid. rewrite lookup_generated by done.
    unfold doc_or. by rewrite bool_decide_eq_true_2. }
  assert (registration_of event_id (VStr uid) (add_doc "notification" notif db')
          = Some (stored rid reg)) as Hnow.
  { unfold registration_of, db'.
    rewrite coll_add_doc, decide_False by done.
    rewrite coll_add_doc, decide_True by done.
    rewrite find_app_None by exact Hreg.
    cbn [List.find]. unfold matches, holds, get, stored, reg, registration_doc.
    cbn [forallb fst snd]. rewrite !lookup_insert_ne by done.
    cbn [list_to_map foldr uncurry]. rewrite lookup_insert_eq.
    rewrite lookup_insert_ne, lookup_insert_eq by done.
    cbn [from_option id]. by rewrite !bool_decide_eq_true_2. }
  split; [|split; [done|]].
  - apply (register_event_existing _ _ _ evt); [|by rewrite ?Huid].
    unfold lookup_by, db'. by rewrite !coll_add_doc, !decide_False.
  - exists [notif]. split; [simpl; lia|]. unfold db'.
    rewrite coll_add_doc, decide_True by done.
    by rewrite coll_add_doc, decide_False.
Qed.

End Registration.

Lemma first_registration_status_witness :
  let db := Sample.event_db 2 in
  let new := stored "4" (registration_doc "3" "1" "confirmed") in
  coll "registration" (register_event Sample.str "3" (Sample.user db "1") db).2
  = coll "registration" db ++ [new]
  ∧ new !! "status" = Some (VStr "confirmed")
  ∧ (ids_generated "registration" db →
     is_Some (default ∅ (lookup_by "event" "id" (VStr "3") db) !! "title") →
     (∃ organizer,
        get (default ∅ (lookup_by "event" "id" (VStr "3") db))
            "organizer_user_id" = VStr organizer) →
     "notification" ∉ rejecting db →
     (register_event Sample.str "3" (Sample.user db "1") db).1 = Ok new).
Proof.
  intros db new.
  apply (first_registration_status Sample.str db "3" (Sample.user db "1")
           (default ∅ (lookup_by "event" "id" (VStr "3") db)) 2 "1").
  - reflexivity.
  - reflexivity.
  - reflexivity.
  - reflexivity.
  - vm_compute. discriminate.
Defined.

Lemma notification_failure_propagates_witness :
  let db := Sample.outage_db 2 in
  ∃ e, register_event Sample.str "3" (Sample.user db "1") db
       = (Raise e,
          add_doc "registration"
            (stored "4" (registration_doc "3" "1" "confirmed")) db).
Proof.
  intros db.
  apply (notification_failure_propagates Sample.str db "3" (Sample.user db "1")
           (default ∅ (lookup_by "event" "id" (VStr "3") db)) 2 "1").
  - reflexivity.
  - reflexivity.
  - reflexivity.
  - reflexivity.
  - vm_compute. discriminate.
  - right; right. reflexivity.
Defined.

(** C8, as stated, fails: with inserts of notifications failing, the first
    registration of user "1" for event "3" ends in an error for the caller
    (while registration "4" is in the store). *)
Lemma notification_failure_reaches_caller :
  let db := Sample.outage_db 2 in
  let caller := Sample.user db "1" in
  registration_of "3" (get caller "id") db = None
  ∧ (register_event Sample.str "3" caller db).1 = Raise StoreError
  ∧ coll "registration" (register_event Sample.str "3" caller db).2
    = [stored "4" (registration_doc "3" "1" "confirmed")].
Proof. cbv zeta. repeat split; reflexivity. Qed.

Lemma register_event_idempotent_witness :
  let db := Sample.event_db 2 in
  let current := Sample.user db "1" in
  (∀ reg, registration_of "3" (get current "id") db = Some reg →
          register_event Sample.str "3" current db = (Ok reg, db))
  ∧ (ids_generated "registration" db →
     ∀ r1 db1,
       register_event Sample.str "3" current db = (Ok r1, db1) →
       register_event Sample.str "3" current db1 = (Ok r1, db1)
       ∧ registration_of "3" (get current "id") db1 = Some r1
       ∧ ∃ sent, length sent ≤ 1
                 ∧ coll "notification" db1 = coll "notification" db ++ sent).
Proof.
  intros db current.
  apply (register_event_idempotent Sample.str db "3" current
           (default ∅ (lookup_by "event" "id" (VStr "3") db))).
  reflexivity.
Defined.

(** ** Handlers that leave events and registrations alone *)

Section Frames.

Lemma same_bookings_refl (db : Db) : same_bookings db db.
Proof. by repeat split. Qed.

Lemma same_bookings_trans (db1 db2 db3 : Db) :
  same_bookings db1 db2 → same_bookings db2 db3 → same_bookings db1 db3.
Proof.
  intros (He & Hr & Hn) (He' & Hr' & Hn'). repeat split; [congruence.. | lia].
Qed.

Lemma frame_ret {A} (a : A) : frame (mret a).
Proof. intros db. apply same_bookings_refl. Qed.

Lemma frame_raise {A} (e : exn) : frame (@raise A e).
Proof. intros db. apply same_bookings_refl. Qed.

Lemma frame_lift {A} (r : result A) : frame (lift r).
Proof. intros db. apply same_bookings_refl. Qed.

Lemma frame_find_one (c : string) (q : query) : frame (find_one c q).
Proof. intros db. apply same_bookings_refl. Qed.

Lemma frame_count_documents (c : string) (q : query) :
  frame (count_documents c q).
Proof. intros db. apply same_bookings_refl. Qed.

Lemma frame_getitem (d : doc) (k : string) : frame (getitem d k).
Proof. intros db. unfold getitem. destruct (d !! k); apply same_bookings_refl. Qed.

Lemma frame_update_one (c : string) (q : query) (fields : doc) :
  c ≠ "event" → c ≠ "registration" → frame (update_one c q fields).
Proof.
  intros He Hr db. unfold update_one. cbn [snd].
  repeat split; [by rewrite coll_set_coll, decide_False.. | done].
Qed.

Lemma frame_create_document (c : string) (data : doc) :
  c ≠ "event" → c ≠ "registration" → frame (create_document c data).
Proof.
  intros He Hr db. unfold create_document.
  case_bool_decide; [apply same_bookings_refl|]. cbn [snd].
  repeat split; [by rewrite coll_add_doc, decide_False.. | cbn; lia].
Qed.

Lemma frame_bind {A B} (m : M A) (k : A → M B) :
  frame m → (∀ a, frame (k a)) → frame (m ≫= k).
Proof.
  intros Hm Hk db. specialize (Hm db). unfold mbind, M_bind.
  destruct (m db) as [[a|e] db']; [|done].
  eapply same_bookings_trans; [exact Hm | apply Hk].
Qed.

Lemma frame_for_each {A B} (f : A → M B) (xs : list A) :
  (∀ x, frame (f x)) → frame (for_each f xs).
Proof.
  intros Hf. induction xs as [|x xs IH]; cbn [for_each].
  - apply frame_ret.
  - apply frame_bind; [apply Hf|]. intros y.
    apply frame_bind; [apply IH|]. intros ys. apply frame_ret.
Qed.

End Frames.

Ltac frame_step :=
  first [ apply frame_ret
        | apply frame_raise
        | apply frame_lift
        | apply frame_find_one
        | apply frame_count_documents
        | apply frame_getitem
        | apply frame_update_one; done
        | apply frame_create_document; done
        | apply frame_bind; [|intros ?]
        | case_match ].

Ltac solve_frame := repeat frame_step.

Section HandlerFrames.

Variable hash_password : string → string.
Variable create_access_token : doc → string.
Variable py_str : value → string.
Variable isoformat_date : Z → string.

Lemma get_current_user_frame (payload : doc) : frame (get_current_user payload).
Proof. unfold get_current_user. solve_frame. Qed.

Lemma register_frame (payload : RegisterPayload) :
  frame (register hash_password create_access_token payload).
Proof. unfold register. solve_frame. Qed.

Lemma upsert_athlete_profile_frame (data : ProfilePayload) (now : Z)
    (current : doc) :
  frame (upsert_athlete_profile py_str data now current).
Proof. unfold upsert_athlete_profile. solve_frame. Qed.

Lemma get_athlete_frame (athlete_id : string) (current : doc) :
  frame (get_athlete athlete_id current).
Proof. unfold get_athlete. solve_frame. Qed.

Lemma create_team_frame (payload : TeamCreate) (current : doc) :
  frame (create_team payload current).
Proof. unfold create_team. solve_frame. Qed.

Lemma add_to_roster_frame (team_id user_id : string) (current : doc) :
  frame (add_to_roster py_str team_id user_id current).
Proof. unfold add_to_roster. solve_frame. Qed.

Lemma mark_read_frame (notif_id : string) (current : doc) :
  frame (mark_read notif_id current).
Proof. unfold mark_read. solve_frame. Qed.

Lemma moderate_frame (action : Moderation) (current : doc) :
  frame (moderate action current).
Proof. unfold moderate. solve_frame. Qed.

Lemma seed_athlete_frame (now : Z) (i : nat) :
  frame (seed_athlete hash_password isoformat_date now i).
Proof. unfold seed_athlete. solve_frame. Qed.

Lemma notify_and_return_frame (evt : doc) (rid : string) (reg : doc) :
  frame (notify_and_return py_str evt rid reg).
Proof. unfold notify_and_return. solve_frame. Qed.

End HandlerFrames.

(** ** The capacity invariant *)

Section Consistency.

Lemma oid_inj (n m : nat) : oid n = oid m → n = m.
Proof. unfold oid. apply (inj pretty). Qed.

Lemma filter_none {X} (f : X → bool) (l : list X) :
  (∀ x, x ∈ l → f x = false) → List.filter f l = [].
Proof.
  induction l as [|x l IH]; [done|]. intros H. cbn [List.filter].
  rewrite (H x) by apply list_elem_of_here.
  apply IH. intros y Hy. apply H. by apply list_elem_of_further.
Qed.

Lemma consistent_empty : consistent empty_db.
Proof.
  split.
  - intros e He. inversion He.
  - intros e e' He. inversion He.
  - intros r Hr. inversion Hr.
  - intros d n Hd. inversion Hd.
  - intros e c He. inversion He.
Qed.

Lemma consistent_same (db db' : Db) :
  consistent db → same_bookings db db' → consistent db'.
Proof.
  intros [Hgen Hagree Hrefer Hreg Hcap] (He & Hr & Hn).
  split; unfold ids_generated, confirmed_count in *; rewrite ?He, ?Hr.
  - intros e Hin. destruct (Hgen e Hin) as (n & c & Hlt & Hid & Hc).
    exists n, c. split; [lia | done].
  - done.
  - done.
  - intros d n Hd Hid. specialize (Hreg d n Hd Hid). lia.
  - done.
Qed.

Lemma confirmed_le_places (event_id : value) (db : Db) :
  confirmed_count event_id db ≤ places_taken event_id db.
Proof.
  unfold confirmed_count, places_taken.
  induction (coll "registration" db) as [|r l IH]; [done|].
  cbn [List.filter]. unfold is_confirmed at 1, holds_place at 1.
  destruct (bool_decide (get r "event_id" = event_id)); cbn [andb];
    [|exact IH].
  case_bool_decide as Hs.
  - rewrite bool_decide_eq_true_2 by (rewrite Hs; set_solver). cbn. lia.
  - destruct (bool_decide _); cbn; lia.
Qed.

Lemma confirmed_count_add_other (c : string) (d : doc) (event_id : value)
    (db : Db) :
  c ≠ "registration" →
  confirmed_count event_id (add_doc c d db) = confirmed_count event_id db.
Proof. intros Hc. unfold confirmed_count. by rewrite coll_add_doc, decide_False. Qed.

Lemma confirmed_count_add (d : doc) (event_id : value) (db : Db) :
  confirmed_count event_id (add_doc "registration" d db)
  = confirmed_count event_id db + (if is_confirmed event_id d then 1 else 0).
Proof.
  unfold confirmed_count. rewrite coll_add_doc, decide_True by done.
  rewrite List.filter_app, length_app. cbn [List.filter].
  by destruct (is_confirmed event_id d).
Qed.

(** A new event: its identifier is fresh, so no registration is for it. *)
Lemma consistent_add_event (db : Db) (data : doc) (capacity : Z) :
  consistent db →
  data !! "capacity" = Some (VInt capacity) →
  consistent (add_doc "event" (stored (oid (next_id db)) data) db).
Proof.
  intros [Hgen Hagree Hrefer Hreg Hcap] Hdata.
  set (new := stored (oid (next_id db)) data).
  assert (new !! "id" = Some (VStr (oid (next_id db)))) as Hnewid
    by apply lookup_insert_eq.
  assert (new !! "capacity" = Some (VInt capacity)) as Hnewcap
    by (unfold new, stored; by rewrite !lookup_insert_ne).
  assert (∀ e, e ∈ coll "event" db → get e "id" ≠ get new "id") as Hfresh.
  { intros e He Heq. destruct (Hgen e He) as (n & c & Hlt & Hid & _).
    unfold get in Heq. rewrite Hid, Hnewid in Heq. cbn in Heq.
    injection Heq as Heq%oid_inj. lia. }
  split.
  - intros e He. rewrite coll_add_doc, decide_True in He by done.
    apply elem_of_app in He as [He|He%list_elem_of_singleton].
    + destruct (Hgen e He) as (n & c & Hlt & Hid & Hc).
      exists n, c. cbn [next_id add_doc]. split; [lia | done].
    + subst e. exists (next_id db), capacity. cbn [next_id add_doc].
      split; [lia | done].
  - intros e e' He He'. rewrite coll_add_doc, decide_True in He, He' by done.
    apply elem_of_app in He as [He|He%list_elem_of_singleton];
      apply elem_of_app in He' as [He'|He'%list_elem_of_singleton]; subst.
    + by apply Hagree.
    + intros Heq. by destruct (Hfresh e He).
    + intros Heq. by destruct (Hfresh e' He').
    + done.
  - intros r Hr. rewrite coll_add_doc, decide_False in Hr by done.
    destruct (Hrefer r Hr) as (e & He & Heq). exists e.
    rewrite coll_add_doc, decide_True by done. split; [set_solver | done].
  - intros d n Hd Hid. rewrite coll_add_doc, decide_False in Hd by done.
    specialize (Hreg d n Hd Hid). cbn [next_id add_doc]. lia.
  - intros e c He Hc. rewrite coll_add_doc, decide_True in He by done.
    rewrite confirmed_count_add_other by done.
    apply elem_of_app in He as [He|He%list_elem_of_singleton].
    + by apply Hcap.
    + subst e. assert (confirmed_count (get new "id") db = 0) as ->; [|lia].
      unfold confirmed_count. rewrite filter_none; [done|].
      intros r Hr.
      destruct (Hrefer r Hr) as (e & He & Heq).
      unfold is_confirmed. rewrite bool_decide_eq_false_2; [done|].
      rewrite Heq. by apply Hfresh.
Qed.

(** A new registration for an event of the store: if it is confirmed, the
    confirmed registrations of that event were short of its capacity. *)
Lemma consistent_add_registration (db : Db) (event_id uid status : string)
    (evt : doc) :
  consistent db →
  evt ∈ coll "event" db →
  get evt "id" = VStr event_id →
  (status = "confirmed" →
   ∀ c, evt !! "capacity" = Some (VInt c) →
        (Z.of_nat (confirmed_count (VStr event_id) db) < c)%Z) →
  consistent (add_doc "registration"
                (stored (oid (next_id db))
                   (registration_doc event_id uid status)) db).
Proof.
  intros [Hgen Hagree Hrefer Hreg Hcap] Hevt Hid Hroom.
  set (new := stored (oid (next_id db)) (registration_doc event_id uid status)).
  assert (get new "event_id" = VStr event_id) as Hnewevt.
  { unfold get, new, stored, registration_doc.
    rewrite !lookup_insert_ne by done. cbn [list_to_map foldr uncurry].
    by rewrite lookup_insert_eq. }
  assert (get new "status" = VStr status) as Hnewstatus.
  { unfold get, new, stored, registration_doc.
    rewrite !lookup_insert_ne by done. cbn [list_to_map foldr uncurry].
    by rewrite !lookup_insert_ne, lookup_insert_eq by done. }
  split.
  - intros e He. rewrite coll_add_doc, decide_False in He by done.
    destruct (Hgen e He) as (n & c & Hlt & Hid' & Hc).
    exists n, c. cbn [next_id add_doc]. split; [lia | done].
  - intros e e' He He'. rewrite coll_add_doc, decide_False in He, He' by done.
    by apply Hagree.
  - intros r Hr. rewrite coll_add_doc, decide_True in Hr by done.
    setoid_rewrite coll_add_doc. rewrite decide_False by done.
    apply elem_of_app in Hr as [Hr|Hr%list_elem_of_singleton].
    + by apply Hrefer.
    + subst r. exists evt. split; [done | congruence].
  - intros d n Hd Hdid. rewrite coll_add_doc, decide_True in Hd by done.
    cbn [next_id add_doc].
    apply elem_of_app in Hd as [Hd|Hd%list_elem_of_singleton].
    + specialize (Hreg d n Hd Hdid). lia.
    + subst d. unfold get, new, stored in Hdid.
      rewrite lookup_insert_eq in Hdid. cbn in Hdid.
      injection Hdid as Hdid%oid_inj. lia.
  - intros e c He Hc. rewrite coll_add_doc, decide_False in He by done.
    rewrite confirmed_count_add. specialize (Hcap e c He Hc).
    unfold is_confirmed. rewrite Hnewevt, Hnewstatus.
    case_bool_decide as Hsame; cbn [andb]; [|lia].
    case_bool_decide as Hconf; [|lia].
    injection Hconf as ->. rewrite <- Hsame.
    assert (evt !! "capacity" = Some (VInt c)) as Hc'.
    { rewrite <- Hc. apply Hagree; [done.. | congruence]. }
    specialize (Hroom eq_refl c Hc'). lia.
Qed.

End Consistency.

Section Keeping.

Variable hash_password : string → string.
Variable create_access_token : doc → string.
Variable py_str : value → string.
Variable isoformat_date : Z → string.

Lemma wp_frame {A} (m : M A) (Φ : result A → Db → Prop) (db : Db) :
  frame m → (∀ r db', same_bookings db db' → Φ r db') → wp m Φ db.
Proof. intros Hm HΦ. apply HΦ, Hm. Qed.

Lemma bind_keeps {A B} (m : M A) (k : A → M B) (db : Db) :
  consistent (m db).2 → (∀ a, frame (k a)) →
  consistent ((m ≫= k) db).2.
Proof.
  intros Hm Hk. unfold mbind, M_bind.
  destruct (m db) as [[a|e] db']; [|done].
  eapply consistent_same; [exact Hm | apply Hk].
Qed.

Lemma frame_keeps {A} (m : M A) (db : Db) :
  frame m → consistent db → consistent (m db).2.
Proof. intros Hm Hc. eapply consistent_same; [exact Hc | apply Hm]. Qed.

Lemma create_event_keeps (payload : EventCreate) (current : doc) (db : Db) :
  consistent db → consistent (create_event payload current db).2.
Proof.
  intros Hc. unfold create_event. case_match; [done|].
  unfold mbind at 1, M_bind at 1, lift, EventSchema.
  destruct (get current "id"); cbn [str_field mbind result_bind]; try done.
  cbn [mret result_ret].
  apply bind_keeps; [|intros eid; solve_frame].
  unfold create_document. case_bool_decide; [done|]. cbn [snd].
  apply (consistent_add_event _ _ (ec_capacity payload)); [done|].
  reflexivity.
Qed.

Lemma register_event_not_found (db : Db) (event_id : string) (current : doc) :
  lookup_by "event" "id" (VStr event_id) db = None →
  register_event py_str event_id current db
  = (Raise (HTTPException 404 "Event not found"), db).
Proof.
  intros Hevt. unfold lookup_by in Hevt.
  unfold register_event, mbind, M_bind, find_one. by rewrite Hevt.
Qed.

Lemma register_event_keeps (event_id : string) (current : doc) (db : Db) :
  consistent db → consistent (register_event py_str event_id current db).2.
Proof.
  intros Hc.
  destruct (lookup_by "event" "id" (VStr event_id) db) as [evt|] eqn:Hevt;
    [|by rewrite register_event_not_found].
  rewrite (register_event_found _ _ _ _ _ Hevt).
  destruct (if_found _); [done|].
  destruct (capacity_of evt) as [capacity|e] eqn:Hcap; [|done].
  destruct (get current "id") as [| | | |uid| | |] eqn:Huid;
    try (unfold RegistrationSchema; cbn [str_field mbind result_bind]; done).
  rewrite registration_doc_valid. case_bool_decide; [done|].
  apply frame_keeps; [apply notify_and_return_frame|].
  apply find_matches in Hevt as [Hin Hm].
  apply matches_eq_str in Hm.
  apply (consistent_add_registration _ _ _ _ evt); [done.. | |].
  - unfold get. by rewrite Hm.
  - unfold status_for. case_bool_decide as Hroom; [|done].
    intros _ c Hc'. unfold capacity_of, get_or in Hcap. rewrite Hc' in Hcap.
    injection Hcap as <-.
    pose proof (confirmed_le_places (VStr event_id) db). lia.
Qed.

Lemma for_each_cons_state {A B} (f : A → M B) (x : A) (xs : list A) (db : Db) :
  (for_each f (x :: xs) db).2
  = match f x db with
    | (Ok _, db') => (for_each f xs db').2
    | (Raise _, db') => db'
    end.
Proof.
  cbn [for_each]. unfold mbind, M_bind.
  destruct (f x db) as [[y|e] db']; [|done].
  by destruct (for_each f xs db') as [[ys|e] db''].
Qed.

Lemma RegistrationSchema_confirmed (event_id uid : string) :
  RegistrationSchema event_id (VStr uid) "confirmed"
  = Ok (registration_doc event_id uid "confirmed").
Proof. reflexivity. Qed.

(** The loop of [seed] over [athletes[:3]]. *)
Lemma seed_registrations_keep (e1 : string) (evt : doc) (uids : list string)
    (db : Db) :
  consistent db →
  evt ∈ coll "event" db →
  get evt "id" = VStr e1 →
  evt !! "capacity" = Some (VInt 50) →
  confirmed_count (VStr e1) db + length uids ≤ 50 →
  consistent
    (for_each (λ uid, r ← lift (RegistrationSchema e1 (VStr uid) "confirmed");
                      create_document "registration" r) uids db).2.
Proof.
  revert db. induction uids as [|uid uids IH]; intros db Hc Hin Hid Hcap Hroom;
    [done|].
  rewrite for_each_cons_state. cbn [length] in Hroom.
  unfold mbind at 1, M_bind at 1, lift at 1.
  rewrite RegistrationSchema_confirmed. unfold create_document at 1.
  case_bool_decide; [done|].
  apply IH.
  - apply (consistent_add_registration _ _ _ _ evt); [done..|].
    intros _ c Hc'. rewrite Hcap in Hc'. injection Hc' as <-. lia.
  - by rewrite coll_add_doc, decide_False.
  - done.
  - done.
  - rewrite confirmed_count_add. case_match; lia.
Qed.

Lemma seed_keeps (now : Z) (db : Db) :
  consistent db → consistent (seed hash_password isoformat_date now db).2.
Proof.
  intros Hc. change (wp (seed hash_password isoformat_date now)
                        (λ _ db', consistent db') db).
  unfold seed. apply wp_bind, wp_count_documents.
  case_bool_decide; [done|].
  do 6 (apply wp_bind, wp_frame; [solve_frame|];
        intros [?|?] ? Hs; apply (consistent_same _ _ Hc) in Hs;
        clear Hc; rename Hs into Hc; [|exact Hc]).
  apply wp_bind, wp_frame;
    [apply frame_for_each; intros; apply seed_athlete_frame|].
  intros [athletes|?] ? Hs; apply (consistent_same _ _ Hc) in Hs;
    clear Hc; rename Hs into Hc; [|exact Hc].
  do 2 (apply wp_bind, wp_frame; [solve_frame|];
        intros [?|?] ? Hs; apply (consistent_same _ _ Hc) in Hs;
        clear Hc; rename Hs into Hc; [|exact Hc]).
  apply wp_bind, wp_lift. unfold EventSchema.
  cbn [str_field mbind result_bind mret result_ret].
  match goal with |- wp (create_document "event" ?d ≫= _) _ ?db0 =>
    set (spring := d); set (dba := db0) in * end.
  apply wp_bind, wp_create_document; [done|]. intros _.
  set (e1 := oid (next_id dba)).
  set (db1 := add_doc "event" (stored e1 spring) dba).
  assert (consistent db1) as Hc1
    by (apply (consistent_add_event _ _ 50); [done | reflexivity]).
  assert (stored e1 spring ∈ coll "event" db1) as Hin1.
  { unfold db1. rewrite coll_add_doc, decide_True by done. set_solver. }
  assert (get (stored e1 spring) "id" = VStr e1) as Hid1.
  { unfold get, stored. by rewrite lookup_insert_eq. }
  assert (stored e1 spring !! "capacity" = Some (VInt 50)) as Hcap1
    by reflexivity.
  assert (confirmed_count (VStr e1) db1 = 0) as Hzero.
  { unfold confirmed_count, db1. rewrite coll_add_doc, decide_False by done.
    rewrite filter_none; [done|]. intros r Hr.
    destruct (registrations_refer _ Hc r Hr) as (e & He & Heq).
    destruct (events_generated _ Hc e He) as (n & c & Hlt & Hid & _).
    unfold is_confirmed. rewrite bool_decide_eq_false_2; [done|].
    rewrite Heq. unfold get. rewrite Hid. cbn. intros [= Hn%oid_inj]. lia. }
  apply wp_bind, wp_lift. unfold EventSchema.
  cbn [str_field mbind result_bind mret result_ret].
  match goal with |- wp (create_document "event" ?d ≫= _) _ _ =>
    set (summer := d) end.
  apply wp_bind, wp_create_document; [done|]. intros _.
  set (e2 := oid (next_id db1)).
  set (db2 := add_doc "event" (stored e2 summer) db1).
  assert (consistent db2) as Hc2
    by (apply (consistent_add_event _ _ 80); [done | reflexivity]).
  apply wp_bind, wp_update_one.
  match goal with |- wp _ _ ?db0 => set (db3 := db0) end.
  assert (same_bookings db2 db3) as Hs3.
  { unfold db3. repeat split;
      [by rewrite coll_set_coll, decide_False.. | done]. }
  destruct Hs3 as (He3 & Hr3 & _).
  assert (consistent
            (for_each (λ uid, r ← lift (RegistrationSchema e1 (VStr uid)
                                           "confirmed");
                              create_document "registration" r)
                      (take 3 athletes) db3).2) as Hloop.
  { apply (seed_registrations_keep e1 (stored e1 spring)).
    - eapply consistent_same; [exact Hc2|]. unfold db3. repeat split;
        [by rewrite coll_set_coll, decide_False.. | done].
    - rewrite He3. unfold db2. rewrite coll_add_doc, decide_True by done.
      set_solver.
    - done.
    - done.
    - unfold confirmed_count in *. rewrite Hr3. unfold db2.
      rewrite coll_add_doc, decide_False by done. rewrite Hzero.
      rewrite length_take. lia. }
  apply wp_bind. unfold wp at 1.
  destruct (for_each _ (take 3 athletes) db3) as [[ys|e] db4]; done.
Qed.

Lemma depends_keeps {A} (token : doc) (h : doc → M A) (db : Db) :
  (∀ current db', consistent db' → consistent (h current db').2) →
  consistent db → consistent (depends token h db).2.
Proof.
  intros Hh Hc. unfold depends, mbind, M_bind.
  pose proof (frame_keeps _ db (get_current_user_frame token) Hc) as Hu.
  destruct (get_current_user token db) as [[current|e] db']; [|done].
  by apply Hh.
Qed.

Lemma respond_state (m : M doc) (db : Db) : (respond m db).2 = (m db).2.
Proof. unfold respond, mbind, M_bind. by destruct (m db) as [[d|e] db']. Qed.

Lemma handle_keeps (r : request) (db : Db) :
  consistent db →
  consistent (handle hash_password create_access_token py_str isoformat_date
                r db).2.
Proof.
  intros Hc. destruct r; cbn [handle]; rewrite ?respond_state.
  - by apply frame_keeps; [apply register_frame|].
  - apply depends_keeps; [|done]. intros current db' Hc'.
    by apply frame_keeps; [apply upsert_athlete_profile_frame|].
  - apply depends_keeps; [|done]. intros current db' Hc'.
    by apply frame_keeps; [apply get_athlete_frame|].
  - apply depends_keeps; [|done]. intros current db' Hc'.
    by apply frame_keeps; [apply create_team_frame|].
  - apply depends_keeps; [|done]. intros current db' Hc'.
    by apply frame_keeps; [apply add_to_roster_frame|].
  - apply depends_keeps; [|done]. intros current db' Hc'.
    by apply create_event_keeps.
  - apply depends_keeps; [|done]. intros current db' Hc'.
    by apply register_event_keeps.
  - apply depends_keeps; [|done]. intros current db' Hc'.
    by apply frame_keeps; [apply mark_read_frame|].
  - apply depends_keeps; [|done]. intros current db' Hc'.
    by apply frame_keeps; [apply moderate_frame|].
  - by apply seed_keeps.
Qed.

Lemma reachable_consistent (db : Db) :
  reachable hash_password create_access_token py_str isoformat_date db →
  consistent db.
Proof.
  induction 1 as [|db r _ IH|db R _ IH].
  - apply consistent_empty.
  - by apply handle_keeps.
  - eapply consistent_same; [exact IH|]. by repeat split.
Qed.

(** In every store that requests served one after the other produce from
    the empty store, also when inserts fail in between, an event of
    non-negative capacity has at most that many confirmed registrations,
    and an event of negative capacity has none. *)
Theorem confirmed_within_capacity (db : Db) (e : doc) (capacity : Z) :
  reachable hash_password create_access_token py_str isoformat_date db →
  e ∈ coll "event" db →
  capacity_of e = Ok capacity →
  (Z.of_nat (confirmed_count (get e "id") db) ≤ Z.max 0 capacity)%Z.
Proof.
  intros Hc%reachable_consistent He Hcap.
  destruct (events_generated _ Hc e He) as (n & c & _ & _ & Hc').
  unfold capacity_of, get_or in Hcap. rewrite Hc' in Hcap.
  injection Hcap as <-. by apply (capacity_kept _ Hc).
Qed.

End Keeping.

Lemma reachable_run (rs : list request) (db : Db) :
  reachable Sample.hash Sample.token Sample.str Sample.isodate db →
  reachable Sample.hash Sample.token Sample.str Sample.isodate
            (Sample.run rs db).
Proof.
  revert db. induction rs as [|r rs IH]; intros db Hdb; [done|].
  cbn [Sample.run foldl]. apply IH. by apply reach_request.
Qed.

Lemma confirmed_within_capacity_witness :
  let db := Sample.inbox_db in
  let e := default ∅ (lookup_by "event" "id" (VStr "3") db) in
  (Z.of_nat (confirmed_count (get e "id") db) ≤ Z.max 0 2)%Z.
Proof.
  intros db e.
  apply (confirmed_within_capacity Sample.hash Sample.token Sample.str
           Sample.isodate db e 2).
  - unfold db, Sample.inbox_db, Sample.event_db.
    do 2 apply reachable_run. apply reach_empty.
  - apply (proj1 (find_matches [("id", Eq (VStr "3"))] (coll "event" db) e
                    eq_refl)).
  - reflexivity.
Defined.

(** ** Listings and their pages *)

Section Pages.

Lemma py_slice_window {A} (xs : list A) (start size : Z) :
  (0 ≤ start)%Z → (0 ≤ size)%Z →
  py_slice xs start (start + size)
  = take (Z.to_nat size) (drop (Z.to_nat start) xs).
Proof.
  intros Hstart Hsize. unfold py_slice. cbv zeta.
  rewrite (proj2 (Z.ltb_ge start 0)) by lia.
  rewrite (proj2 (Z.ltb_ge (start + size) 0)) by lia.
  remember (Z.of_nat (length xs)) as n eqn:Hn.
  destruct (decide (start ≤ n)%Z) as [Hle|Hgt].
  - rewrite (Z.min_l start n) by lia.
    destruct (decide (start + size ≤ n)%Z) as [Hle'|Hgt'].
    + rewrite Z.min_l by lia. f_equal. lia.
    + rewrite Z.min_r by lia.
      rewrite !take_ge; [done|rewrite length_drop; lia..].
  - rewrite (Z.min_r start n), Z.min_r by lia.
    rewrite !drop_ge by lia. by rewrite !take_nil.
Qed.

Lemma filter_matches_all (l : list doc) : List.filter (matches []) l = l.
Proof. induction l as [|d l IH]; [done|]. cbn. by rewrite IH. Qed.

Lemma list_events_matching (sport : option string) (p size : Z) (db : Db) :
  list_events sport p size db
  = (Ok {| results := py_slice (events_of sport db) ((p - 1) * size)
                               ((p - 1) * size + size);
           total := length (events_of sport db);
           page := p; page_size := size |}, db).
Proof.
  unfold list_events, mbind, M_bind, find, mret, M_ret, events_of.
  destruct sport as [[|a s]|]; cbn [truthy String.eqb negb];
    rewrite ?filter_matches_all; try done.
  assert (List.filter (matches [("sport", Eq (VStr (String a s)))])
                      (coll "event" db)
          = List.filter (λ e, bool_decide (get e "sport" = VStr (String a s)))
                        (coll "event" db)) as ->; [|done].
  apply List.filter_ext. intros e. unfold matches, holds.
  cbn [forallb fst snd]. apply andb_true_r.
Qed.

(** A page of [GET /events] from page 1 on, with a page size that is not
    negative, is the window of that size at offset (page - 1) * size of the
    matching events, in store order; [total] counts all matching events
    whatever the page; the store is left as it was. *)
Theorem list_events_window (sport : option string) (p size : Z) (db : Db) :
  (1 ≤ p)%Z → (0 ≤ size)%Z →
  list_events sport p size db
  = (Ok {| results := take (Z.to_nat size)
                        (drop (Z.to_nat ((p - 1) * size)) (events_of sport db));
           total := length (events_of sport db);
           page := p; page_size := size |}, db).
Proof.
  intros Hp Hsize. rewrite list_events_matching.
  by rewrite py_slice_window by nia.
Qed.

(** Read one after the other, the first [k] pages of a listing are its
    first [k * size] matching events: no event is skipped or repeated. *)
Theorem list_events_pages_tile (sport : option string) (size : nat) (k : nat)
    (db : Db) :
  concat ((λ i : nat,
             match (list_events sport (Z.of_nat (S i)) (Z.of_nat size) db).1 with
             | Ok pg => results pg
             | Raise _ => []
             end) <$> seq 0 k)
  = take (k * size) (events_of sport db).
Proof.
  induction k as [|k IH]; [done|].
  rewrite seq_S, fmap_app, concat_app, IH. cbn [fmap list_fmap concat].
  rewrite app_nil_r, list_events_window by lia. cbn [fst results].
  replace (Z.to_nat ((Z.of_nat (S (0 + k)) - 1) * Z.of_nat size))
    with (k * size) by lia.
  rewrite Nat2Z.id, take_take_drop. f_equal. lia.
Qed.

(** Page 0, which the route accepts, is empty for every positive page
    size; page 1 with a negative size [-k] is every matching event but the
    last [k]. *)
Theorem list_events_off_range (sport : option string) (k : nat) (db : Db) :
  0 < k →
  (∃ pg, list_events sport 0 (Z.of_nat k) db = (Ok pg, db) ∧ results pg = [])
  ∧ (∃ pg, list_events sport 1 (- Z.of_nat k) db = (Ok pg, db)
           ∧ results pg
             = take (length (events_of sport db) - k) (events_of sport db)).
Proof.
  intros Hk. split; eexists; (split; [apply list_events_matching|]);
    cbn [results]; unfold py_slice; cbv zeta;
    remember (Z.of_nat (length (events_of sport db))) as n eqn:Hn.
  - replace ((0 - 1) * Z.of_nat k + Z.of_nat k)%Z with 0%Z by lia.
    rewrite (proj2 (Z.ltb_lt ((0 - 1) * Z.of_nat k) 0)) by lia.
    rewrite (proj2 (Z.ltb_ge 0 0)) by lia.
    replace (Z.to_nat _) with 0; [done|]. lia.
  - replace ((1 - 1) * - Z.of_nat k)%Z with 0%Z by lia.
    rewrite (proj2 (Z.ltb_ge 0 0)) by lia.
    rewrite (proj2 (Z.ltb_lt (0 + - Z.of_nat k) 0)) by lia.
    rewrite (Z.min_l 0 n) by lia. cbn [Z.to_nat drop]. f_equal. lia.
Qed.

End Pages.

(** ** Creating and reading back *)

Section RoundTrips.

Variable py_str : value → string.

Lemma get_event_by_id (event_id : string) (d : doc) (db : Db) :
  lookup_by "event" "id" (VStr event_id) db = Some d →
  get_event event_id db = (Ok d, db).
Proof.
  intros Hd. pose proof (lookup_by_str_truthy _ _ _ _ _ Hd) as Ht.
  unfold lookup_by in Hd. unfold get_event, mbind, M_bind, find_one.
  rewrite Hd, Ht. unfold mret, M_ret, if_found. by rewrite Ht.
Qed.

Lemma get_team_by_id (team_id : string) (d : doc) (db : Db) :
  lookup_by "team" "id" (VStr team_id) db = Some d →
  get_team team_id db = (Ok d, db).
Proof.
  intros Hd. pose proof (lookup_by_str_truthy _ _ _ _ _ Hd) as Ht.
  unfold lookup_by in Hd. unfold get_team, mbind, M_bind, find_one.
  rewrite Hd, Ht. unfold mret, M_ret, if_found. by rewrite Ht.
Qed.

Lemma stored_nonempty (rid : string) (data : doc) : stored rid data ≠ ∅.
Proof.
  intros H. apply (f_equal (.!! "id")) in H.
  unfold stored in H. by rewrite lookup_insert_eq, lookup_empty in H.
Qed.

(** A caller whose role is not organizer, coach or admin is refused and
    nothing is stored.  For any other caller with an identifier, while the
    store takes the insert, [create_event] stores the event under a new
    identifier with the caller as organizer and the capacity of the
    payload, zero and negative ones included, and answers with the stored
    document; [get_event] on that identifier then returns this document. *)
Theorem create_event_then_get_event (payload : EventCreate) (current : doc)
    (db : Db) :
  (get current "role" ∉ [VStr "organizer"; VStr "coach"; VStr "admin"] →
   create_event payload current db
   = (Raise (HTTPException 403 "Only organizers/coaches can create events"), db))
  ∧ (get current "role" ∈ [VStr "organizer"; VStr "coach"; VStr "admin"] →
     ∀ uid, get current "id" = VStr uid →
     "event" ∉ rejecting db →
     ids_generated "event" db →
     let eid := oid (next_id db) in
     ∃ d, create_event payload current db = (Ok d, add_doc "event" d db)
          ∧ d !! "id" = Some (VStr eid)
          ∧ d !! "organizer_user_id" = Some (VStr uid)
          ∧ d !! "capacity" = Some (VInt (ec_capacity payload))
          ∧ d !! "title" = Some (VStr (ec_title payload))
          ∧ get_event eid (add_doc "event" d db) = (Ok d, add_doc "event" d db)).
Proof.
  split.
  - intros Hrole. unfold create_event, py_in.
    by rewrite (bool_decide_eq_false_2 _ Hrole).
  - intros Hrole uid Huid Hrej Hgen eid.
    unfold create_event, py_in. rewrite (bool_decide_eq_true_2 _ Hrole).
    cbn [negb]. rewrite Huid. unfold EventSchema.
    cbn [str_field mbind result_bind mret result_ret].
    unfold mbind at 1, M_bind at 1, lift.
    unfold mbind at 1, M_bind at 1, create_document.
    rewrite (bool_decide_eq_false_2 _ Hrej).
    unfold mbind, M_bind, find_one, mret, M_ret.
    unfold result_ret. cbv beta iota.
    fold eid. match goal with |- context [stored eid ?e] => set (evt := e) end.
    pose proof (lookup_generated "event" db evt Hgen) as Hfound.
    fold eid in Hfound. unfold lookup_by in Hfound. rewrite Hfound.
    unfold doc_or. rewrite bool_decide_eq_true_2 by apply stored_nonempty.
    exists (stored eid evt). split; [done|].
    split; [apply lookup_insert_eq|].
    do 3 (split; [reflexivity|]).
    by apply get_event_by_id.
Qed.

(** [create_team] lets an organizer create a team, of which the organizer
    is then the coach of record; [add_to_roster] on that very team refuses
    its creator, whose role is neither coach nor admin. *)
Theorem organizer_cannot_fill_own_team (payload : TeamCreate) (current : doc)
    (db : Db) (uid user_id : string) :
  get current "role" = VStr "organizer" →
  get current "id" = VStr uid →
  "team" ∉ rejecting db →
  ids_generated "team" db →
  let tid := oid (next_id db) in
  ∃ d, create_team payload current db = (Ok d, add_doc "team" d db)
       ∧ d !! "id" = Some (VStr tid)
       ∧ d !! "coach_user_id" = Some (VStr uid)
       ∧ d !! "roster_user_ids" = Some (VList [])
       ∧ get_team tid (add_doc "team" d db) = (Ok d, add_doc "team" d db)
       ∧ add_to_roster py_str tid user_id current (add_doc "team" d db)
         = (Raise (HTTPException 403 "Only coach can modify roster"),
            add_doc "team" d db).
Proof.
  intros Hrole Huid Hrej Hgen tid.
  unfold create_team, py_in. rewrite Hrole.
  rewrite bool_decide_eq_true_2 by set_solver.
  cbn [negb]. rewrite Huid. unfold TeamSchema.
  cbn [str_field mbind result_bind mret result_ret].
  unfold mbind at 1, M_bind at 1, lift.
  unfold mbind at 1, M_bind at 1, create_document.
  rewrite (bool_decide_eq_false_2 _ Hrej).
  unfold mbind, M_bind, find_one, mret, M_ret.
  unfold result_ret. cbv beta iota.
  fold tid. match goal with |- context [stored tid ?e] => set (team := e) end.
  pose proof (lookup_generated "team" db team Hgen) as Hfound.
  fold tid in Hfound.
  assert (List.find (matches [("id", Eq (VStr tid))])
            (coll "team" (add_doc "team" (stored tid team) db))
          = Some (stored tid team)) as Hfind by exact Hfound.
  rewrite Hfind. unfold doc_or.
  rewrite bool_decide_eq_true_2 by apply stored_nonempty.
  exists (stored tid team). split; [done|].
  split; [apply lookup_insert_eq|].
  do 2 (split; [reflexivity|]).
  split; [by apply get_team_by_id|].
  pose proof (lookup_by_str_truthy _ _ _ _ _ Hfound) as Htruthy.
  unfold add_to_roster, mbind, M_bind, find_one. rewrite Hfind.
  unfold if_found. rewrite Htruthy. unfold py_in. rewrite Hrole.
  by rewrite (bool_decide_eq_false_2
                (VStr "organizer" ∈ [VStr "coach"; VStr "admin"])) by set_solver.
Qed.

End RoundTrips.

(** ** Accounts *)

Section Accounts.

Variable hash_password : string → string.
Variable verify_password : string → value → result bool.
Variable create_access_token : doc → string.
Variable py_str : value → string.

Lemma pretty_N_go_length (x : N) (s : string) :
  String.length s ≤ String.length (pretty_N_go x s).
Proof.
  revert s. induction (N.lt_wf_0 x) as [x _ IH]; intros s.
  destruct (decide (x = 0)%N) as [->|Hx]; [by rewrite pretty_N_go_0|].
  rewrite pretty_N_go_step by lia.
  etrans; [|apply IH, N.div_lt; lia]. cbn. lia.
Qed.

Lemma oid_truthy (n : nat) : truthy (VStr (oid n)) = true.
Proof.
  cbn [truthy]. apply negb_true_iff, String.eqb_neq.
  unfold oid, pretty, pretty_nat, pretty, pretty_N.
  case_decide; [done|]. intros Hempty.
  assert (N.of_nat n ≠ 0)%N as Hn by done.
  rewrite pretty_N_go_step in Hempty by lia.
  pose proof (pretty_N_go_length (N.of_nat n `div` 10)
                (String (pretty_N_char (N.of_nat n `mod` 10)) "")) as Hlen.
  rewrite Hempty in Hlen. cbn in Hlen. lia.
Qed.

Lemma matches_eq (k : string) (v : value) (q : query) (d : doc) :
  matches ((k, Eq v) :: q) d = true → get d k = v.
Proof.
  rewrite matches_cons. intros [H _]%andb_prop.
  unfold holds in H. cbn [fst snd] in H. by apply bool_decide_eq_true_1 in H.
Qed.

(** Whatever the token claims, [get_current_user] leaves the store as it
    was and either raises 401 "Invalid authorization header", or returns a
    document of the user collection that carries the [sub] claim as its
    [id] or [_id], or else the [email] claim as its [email]. *)
Theorem get_current_user_sound (payload : doc) (db : Db) :
  match get_current_user payload db with
  | (Ok u, db') =>
      db' = db ∧ u ∈ coll "user" db
      ∧ truthy (get payload "sub") = true
      ∧ (get u "id" = get payload "sub"
         ∨ get u "_id" = get payload "sub"
         ∨ (truthy (get payload "email") = true
            ∧ get u "email" = get payload "email"))
  | (Raise e, db') =>
      db' = db ∧ e = HTTPException 401 "Invalid authorization header"
  end.
Proof.
  enough (wp (get_current_user payload)
            (λ r db',
               match r with
               | Ok u =>
                   db' = db ∧ u ∈ coll "user" db
                   ∧ truthy (get payload "sub") = true
                   ∧ (get u "id" = get payload "sub"
                      ∨ get u "_id" = get payload "sub"
                      ∨ (truthy (get payload "email") = true
                         ∧ get u "email" = get payload "email"))
               | Raise e =>
                   db' = db
                   ∧ e = HTTPException 401 "Invalid authorization header"
               end) db) as Hwp.
  { unfold wp in Hwp.
    by destruct (get_current_user payload db) as [[u|e] db']. }
  unfold get_current_user. cbv zeta.
  repeat first [ apply wp_bind | apply wp_find_one | apply wp_ret
               | apply wp_raise | case_match ];
    try done;
    unfold if_found in *; repeat case_match; simplify_eq;
    repeat match goal with
           | H : List.find _ _ = Some _ |- _ =>
               apply find_matches in H as [? ?%matches_eq]
           | H : negb _ = false |- _ => apply negb_false_iff in H
           end;
    auto 10.
Qed.

Lemma get_current_user_by_id (payload u : doc) (db : Db) :
  truthy (get payload "sub") = true →
  lookup_by "user" "id" (get payload "sub") db = Some u →
  u ≠ ∅ →
  get_current_user payload db = (Ok u, db).
Proof.
  intros Hsub Hu Hne. unfold lookup_by in Hu.
  assert (truthy_doc (Some u) = true) as Ht by by apply bool_decide_eq_true_2.
  unfold get_current_user. cbv zeta. rewrite Hsub. cbn [negb].
  unfold mbind, M_bind, find_one, mret, M_ret, if_found.
  rewrite Hu, Ht. cbn [negb]. rewrite Ht. cbn [negb]. cbv beta iota.
  by rewrite Ht.
Qed.

Lemma register_ok (payload : RegisterPayload) (db : Db) :
  lookup_by "user" "email" (VStr (rp_email payload)) db = None →
  rp_role payload ∈ ["athlete"; "coach"; "organizer"; "admin"; "guest"] →
  "user" ∉ rejecting db →
  register hash_password create_access_token payload db
  = (Ok (bearer_token create_access_token (claims_of (oid (next_id db)) payload)),
     add_doc "user" (stored (oid (next_id db)) (new_user hash_password payload)) db).
Proof.
  intros Hfree Hrole Hrej. unfold lookup_by in Hfree.
  unfold register. unfold mbind at 1, M_bind at 1, find_one at 1.
  rewrite Hfree. cbn [truthy_doc].
  unfold mbind at 1, M_bind at 1, lift, UserSchema, literal_field.
  rewrite (bool_decide_eq_true_2 _ Hrole).
  cbn [mbind result_bind mret result_ret]. unfold result_ret. cbv beta iota.
  unfold mbind at 1, M_bind at 1, create_document.
  by rewrite (bool_decide_eq_false_2 _ Hrej).
Qed.

Lemma register_taken (payload : RegisterPayload) (u : doc) (db : Db) :
  lookup_by "user" "email" (VStr (rp_email payload)) db = Some u →
  register hash_password create_access_token payload db
  = (Raise (HTTPException 400 "Email already registered"), db).
Proof.
  intros Hu. pose proof (lookup_by_str_truthy _ _ _ _ _ Hu) as Ht.
  unfold lookup_by in Hu.
  unfold register, mbind, M_bind, find_one. by rewrite Hu, Ht.
Qed.

Lemma lookup_new_user_email (payload : RegisterPayload) (db : Db) :
  lookup_by "user" "email" (VStr (rp_email payload)) db = None →
  lookup_by "user" "email" (VStr (rp_email payload))
    (add_doc "user" (stored (oid (next_id db)) (new_user hash_password payload)) db)
  = Some (stored (oid (next_id db)) (new_user hash_password payload)).
Proof.
  intros Hfree. unfold lookup_by in *.
  rewrite coll_add_doc, decide_True by done.
  rewrite find_app_None by done. cbn [List.find].
  rewrite matches_cons. unfold holds. cbn [fst snd].
  assert (get (stored (oid (next_id db)) (new_user hash_password payload)) "email"
          = VStr (rp_email payload)) as -> by reflexivity.
  by rewrite bool_decide_eq_true_2.
Qed.

(** A registration with an unused email and a role of the schema, while
    the store takes the insert, stores one user whose password is kept
    hashed and whose privacy is public, and answers with a token over
    claims that [get_current_user] resolves to that user.  After it, any
    registration with the same email is refused with 400 and stores
    nothing. *)
Theorem register_then_authenticate (payload : RegisterPayload) (db : Db) :
  lookup_by "user" "email" (VStr (rp_email payload)) db = None →
  rp_role payload ∈ ["athlete"; "coach"; "organizer"; "admin"; "guest"] →
  "user" ∉ rejecting db →
  ids_generated "user" db →
  let uid := oid (next_id db) in
  let u := stored uid (new_user hash_password payload) in
  let db' := add_doc "user" u db in
  register hash_password create_access_token payload db
  = (Ok (bearer_token create_access_token (claims_of uid payload)), db')
  ∧ u !! "password_hash" = Some (VStr (hash_password (rp_password payload)))
  ∧ u !! "privacy" = Some (VStr "public")
  ∧ get_current_user (claims_of uid payload) db' = (Ok u, db')
  ∧ ∀ again, rp_email again = rp_email payload →
             register hash_password create_access_token again db'
             = (Raise (HTTPException 400 "Email already registered"), db').
Proof.
  intros Hfree Hrole Hrej Hgen uid u db'.
  split; [by apply register_ok|].
  do 2 (split; [reflexivity|]).
  split.
  - apply get_current_user_by_id.
    + apply oid_truthy.
    + by apply lookup_generated.
    + apply stored_nonempty.
  - intros again Hsame. apply (register_taken _ u). rewrite Hsame.
    by apply lookup_new_user_email.
Qed.

(** [login] never changes the store.  It answers with a token only when a
    user document with that email exists and [verify_password] accepts the
    password against the hash stored in the first such document; an
    unknown email and a rejected password both get 400 "Invalid
    credentials". *)
Theorem login_outcomes (payload : LoginPayload) (db : Db) :
  (login verify_password create_access_token py_str payload db).2 = db
  ∧ (lookup_by "user" "email" (VStr (lp_email payload)) db = None →
     (login verify_password create_access_token py_str payload db).1
     = Raise (HTTPException 400 "Invalid credentials"))
  ∧ (∀ u, lookup_by "user" "email" (VStr (lp_email payload)) db = Some u →
          verify_password (lp_password payload)
            (get_or u "password_hash" (VStr "")) = Ok false →
          (login verify_password create_access_token py_str payload db).1
          = Raise (HTTPException 400 "Invalid credentials"))
  ∧ (∀ tok, (login verify_password create_access_token py_str payload db).1
            = Ok tok →
            ∃ u, lookup_by "user" "email" (VStr (lp_email payload)) db = Some u
                 ∧ verify_password (lp_password payload)
                     (get_or u "password_hash" (VStr "")) = Ok true).
Proof.
  unfold lookup_by, login, mbind, M_bind, find_one, lift, getitem, if_found.
  destruct (List.find _ _) as [u|] eqn:Hu.
  - pose proof (lookup_by_str_truthy "user" "email" _ db u Hu) as ->.
    destruct (verify_password _ _) as [[|]|e] eqn:Hv; cbn [negb fst snd].
    + destruct (u !! "email"); cbn [fst snd]; repeat split;
        first [done | intros; congruence | intros; simplify_eq; eauto].
    + repeat split; first [done | intros; congruence].
    + repeat split; first [done | intros; congruence].
  - cbn [truthy_doc fst snd]. repeat split; first [done | intros; congruence].
Qed.

(** Registering and then logging in with the same credentials, when
    [verify_password] accepts a password against its own hash: the login
    succeeds and its token is over claims with the new user's identifier,
    which [get_current_user] resolves to the user just stored. *)
Theorem register_then_login (payload : RegisterPayload) (db : Db) :
  lookup_by "user" "email" (VStr (rp_email payload)) db = None →
  rp_role payload ∈ ["athlete"; "coach"; "organizer"; "admin"; "guest"] →
  "user" ∉ rejecting db →
  ids_generated "user" db →
  verify_password (rp_password payload)
    (VStr (hash_password (rp_password payload))) = Ok true →
  let uid := oid (next_id db) in
  let u := stored uid (new_user hash_password payload) in
  let db' := (register hash_password create_access_token payload db).2 in
  ∃ claims,
    login verify_password create_access_token py_str
      {| lp_email := rp_email payload; lp_password := rp_password payload |} db'
    = (Ok (bearer_token create_access_token claims), db')
    ∧ claims !! "sub" = Some (VStr uid)
    ∧ get_current_user claims db' = (Ok u, db').
Proof.
  intros Hfree Hrole Hrej Hgen Hverify uid u db'.
  unfold db'. rewrite register_ok by done. cbn [snd]. fold uid. fold u.
  exists (claims_of uid payload).
  pose proof (lookup_new_user_email payload db Hfree) as Hfound.
  fold uid in Hfound. fold u in Hfound.
  pose proof (lookup_by_str_truthy _ _ _ _ _ Hfound) as Ht.
  split; [|split; [reflexivity|]].
  - unfold lookup_by in Hfound.
    unfold login, mbind, M_bind, find_one. cbn [lp_email lp_password].
    rewrite Hfound. unfold if_found. rewrite Ht.
    assert (get_or u "password_hash" (VStr "")
            = VStr (hash_password (rp_password payload))) as -> by reflexivity.
    unfold lift. rewrite Hverify. cbn [negb].
    assert (get u "id" = VStr uid) as -> by reflexivity.
    assert (truthy (VStr uid) = true) as -> by apply oid_truthy.
    unfold getitem.
    assert (u !! "email" = Some (VStr (rp_email payload))) as -> by reflexivity.
    reflexivity.
  - apply get_current_user_by_id.
    + apply oid_truthy.
    + by apply lookup_generated.
    + apply stored_nonempty.
Qed.

End Accounts.

(** ** Collections that only grow *)

Section Appending.

Variable c : string.

Lemma grows_refl (db : Db) : grows c db db.
Proof. exists []. by rewrite app_nil_r. Qed.

Lemma grows_trans (db1 db2 db3 : Db) :
  grows c db1 db2 → grows c db2 db3 → grows c db1 db3.
Proof.
  intros [l1 H1] [l2 H2]. exists (l1 ++ l2). by rewrite H2, H1, app_assoc.
Qed.

Lemma appends_ret {A} (a : A) : appends c (mret a).
Proof. intros db. apply grows_refl. Qed.

Lemma appends_raise {A} (e : exn) : appends c (@raise A e).
Proof. intros db. apply grows_refl. Qed.

Lemma appends_lift {A} (r : result A) : appends c (lift r).
Proof. intros db. apply grows_refl. Qed.

Lemma appends_find_one (c' : string) (q : query) : appends c (find_one c' q).
Proof. intros db. apply grows_refl. Qed.

Lemma appends_count_documents (c' : string) (q : query) :
  appends c (count_documents c' q).
Proof. intros db. apply grows_refl. Qed.

Lemma appends_getitem (d : doc) (k : string) : appends c (getitem d k).
Proof. intros db. unfold getitem. destruct (d !! k); apply grows_refl. Qed.

Lemma appends_update_one (c' : string) (q : query) (fields : doc) :
  c' ≠ c → appends c (update_one c' q fields).
Proof.
  intros Hc db. exists []. unfold update_one. cbn [snd].
  by rewrite coll_set_coll, decide_False, app_nil_r.
Qed.

Lemma appends_create_document (c' : string) (data : doc) :
  appends c (create_document c' data).
Proof.
  intros db. unfold create_document. case_bool_decide; [apply grows_refl|].
  cbn [snd]. unfold grows. rewrite coll_add_doc.
  case_decide; [subst; eauto | apply grows_refl].
Qed.

Lemma appends_bind {A B} (m : M A) (k : A → M B) :
  appends c m → (∀ a, appends c (k a)) → appends c (m ≫= k).
Proof.
  intros Hm Hk db. specialize (Hm db). unfold mbind, M_bind.
  destruct (m db) as [[a|e] db']; [|done].
  eapply grows_trans; [exact Hm | apply Hk].
Qed.

Lemma appends_for_each {A B} (f : A → M B) (xs : list A) :
  (∀ x, appends c (f x)) → appends c (for_each f xs).
Proof.
  intros Hf. induction xs as [|x xs IH]; cbn [for_each].
  - apply appends_ret.
  - apply appends_bind; [apply Hf|]. intros y.
    apply appends_bind; [apply IH|]. intros ys. apply appends_ret.
Qed.

End Appending.

Ltac appends_step :=
  first [ apply appends_ret
        | apply appends_raise
        | apply appends_lift
        | apply appends_find_one
        | apply appends_count_documents
        | apply appends_getitem
        | apply appends_update_one; done
        | apply appends_create_document
        | apply appends_for_each; intros ?
        | apply appends_bind; [|intros ?]
        | case_match ].

Section AppendOnly.

Variable hash_password : string → string.
Variable create_access_token : doc → string.
Variable py_str : value → string.
Variable isoformat_date : Z → string.

Lemma handle_appends (c : string) (r : request) :
  c ∈ kept_whole →
  appends c (handle hash_password create_access_token py_str isoformat_date r).
Proof.
  intros Hc. unfold kept_whole in Hc.
  repeat (apply elem_of_cons in Hc as [->|Hc]); [..|by inversion Hc];
    destruct r; cbn [handle];
    unfold respond, depends, get_current_user, register,
      upsert_athlete_profile, get_athlete, create_team, add_to_roster,
      create_event, register_event, mark_read, moderate, seed, seed_athlete;
    repeat appends_step.
Qed.

Lemma evolves_grows (c : string) (db db' : Db) :
  c ∈ kept_whole →
  evolves hash_password create_access_token py_str isoformat_date db db' →
  grows c db db'.
Proof.
  intros Hc. induction 1 as [|db' r _ IH|db' R _ IH].
  - apply grows_refl.
  - eapply grows_trans; [exact IH | by apply handle_appends].
  - destruct IH as [added IH]. exists added. exact IH.
Qed.

(** No request removes or changes a stored user, event, registration or
    moderation record: after any number of requests, with inserts failing
    or not, each of these collections is what it was, followed by the
    documents added since. *)
Theorem history_only_appends (c : string) (db db' : Db) :
  c ∈ kept_whole →
  evolves hash_password create_access_token py_str isoformat_date db db' →
  ∃ added, coll c db' = coll c db ++ added.
Proof. apply evolves_grows. Qed.

(** A registration is for good: once a user is registered for an event,
    then after any further requests, by anyone and with inserts failing or
    not, [register_event] for that user and event still returns that very
    registration, status included, and changes nothing. *)
Theorem registration_is_permanent (db db' : Db) (event_id : string)
    (current evt reg : doc) :
  lookup_by "event" "id" (VStr event_id) db = Some evt →
  registration_of event_id (get current "id") db = Some reg →
  evolves hash_password create_access_token py_str isoformat_date db db' →
  register_event py_str event_id current db' = (Ok reg, db').
Proof.
  intros Hevt Hreg Hlater.
  destruct (evolves_grows "event" db db') as [es Hes];
    [unfold kept_whole; set_solver | done |].
  destruct (evolves_grows "registration" db db') as [rs Hrs];
    [unfold kept_whole; set_solver | done |].
  apply (register_event_existing _ _ _ _ evt).
  - unfold lookup_by in *. rewrite Hes. by apply find_app_Some.
  - unfold registration_of in *. rewrite Hrs. by apply find_app_Some.
Qed.

End AppendOnly.

Lemma evolves_run (rs : list request) (db0 db : Db) :
  evolves Sample.hash Sample.token Sample.str Sample.isodate db0 db →
  evolves Sample.hash Sample.token Sample.str Sample.isodate db0
          (Sample.run rs db).
Proof.
  revert db. induction rs as [|r rs IH]; intros db Hdb; [done|].
  cbn [Sample.run foldl]. apply IH. by apply evolves_request.
Qed.

Lemma history_only_appends_witness :
  ∃ added, coll "registration" Sample.inbox_db
           = coll "registration" (Sample.event_db 2) ++ added.
Proof.
  apply (history_only_appends Sample.hash Sample.token Sample.str
           Sample.isodate "registration" (Sample.event_db 2) Sample.inbox_db).
  - unfold kept_whole. set_solver.
  - unfold Sample.inbox_db. apply evolves_run, evolves_refl.
Defined.

Lemma registration_is_permanent_witness :
  let db := Sample.inbox_db in
  let later := Sample.run [PostSeed 0; Sample.signup "zoe" "admin"] db in
  register_event Sample.str "3" (Sample.user db "1") later
  = (Ok (default ∅ (registration_of "3" (VStr "1") db)), later).
Proof.
  intros db later.
  apply (registration_is_permanent Sample.hash Sample.token Sample.str
           Sample.isodate db later "3" (Sample.user db "1")
           (default ∅ (lookup_by "event" "id" (VStr "3") db))).
  - reflexivity.
  - reflexivity.
  - unfold later. apply evolves_run, evolves_refl.
Defined.

Lemma list_events_window_witness :
  list_events (Some "soccer") 1 20 (Sample.event_db 2)
  = (Ok {| results := take (Z.to_nat 20)
                        (drop (Z.to_nat ((1 - 1) * 20))
                              (events_of (Some "soccer") (Sample.event_db 2)));
           total := length (events_of (Some "soccer") (Sample.event_db 2));
           page := 1; page_size := 20 |}, Sample.event_db 2).
Proof.
  apply (list_events_window (Some "soccer") 1 20 (Sample.event_db 2)); lia.
Defined.

Lemma list_events_off_range_witness :
  (∃ pg, list_events None 0 (Z.of_nat 5) (Sample.event_db 2)
         = (Ok pg, Sample.event_db 2) ∧ results pg = [])
  ∧ (∃ pg, list_events None 1 (- Z.of_nat 5) (Sample.event_db 2)
           = (Ok pg, Sample.event_db 2)
           ∧ results pg
             = take (length (events_of None (Sample.event_db 2)) - 5)
                    (events_of None (Sample.event_db 2))).
Proof. apply (list_events_off_range None 5 (Sample.event_db 2)). lia. Defined.

Lemma organizer_cannot_fill_own_team_witness :
  let db := Sample.event_db 2 in
  let current := Sample.user db "0" in
  ∃ d, create_team Sample.hawks current db = (Ok d, add_doc "team" d db)
       ∧ d !! "id" = Some (VStr (oid (next_id db)))
       ∧ d !! "coach_user_id" = Some (VStr "0")
       ∧ d !! "roster_user_ids" = Some (VList [])
       ∧ get_team (oid (next_id db)) (add_doc "team" d db)
         = (Ok d, add_doc "team" d db)
       ∧ add_to_roster Sample.str (oid (next_id db)) "1" current
           (add_doc "team" d db)
         = (Raise (HTTPException 403 "Only coach can modify roster"),
            add_doc "team" d db).
Proof.
  intros db current.
  apply (organizer_cannot_fill_own_team Sample.str Sample.hawks current db
           "0" "1").
  - reflexivity.
  - reflexivity.
  - vm_compute. discriminate.
  - intros d n Hd. exfalso. revert Hd.
    change (d ∉ @nil doc). apply not_elem_of_nil.
Defined.

Lemma register_then_authenticate_witness :
  let uid := oid (next_id empty_db) in
  let u := stored uid (new_user Sample.hash Sample.ann) in
  let db' := add_doc "user" u empty_db in
  register Sample.hash Sample.token Sample.ann empty_db
  = (Ok (bearer_token Sample.token (claims_of uid Sample.ann)), db')
  ∧ u !! "password_hash" = Some (VStr (Sample.hash (rp_password Sample.ann)))
  ∧ u !! "privacy" = Some (VStr "public")
  ∧ get_current_user (claims_of uid Sample.ann) db' = (Ok u, db')
  ∧ ∀ again, rp_email again = rp_email Sample.ann →
             register Sample.hash Sample.token again db'
             = (Raise (HTTPException 400 "Email already registered"), db').
Proof.
  apply (register_then_authenticate Sample.hash Sample.token Sample.ann
           empty_db).
  - reflexivity.
  - cbn. set_solver.
  - apply not_elem_of_empty.
  - intros d n Hd. exfalso. revert Hd.
    change (d ∉ @nil doc). apply not_elem_of_nil.
Defined.

Lemma register_then_login_witness :
  let uid := oid (next_id empty_db) in
  let u := stored uid (new_user Sample.hash Sample.ann) in
  let db' := (register Sample.hash Sample.token Sample.ann empty_db).2 in
  ∃ claims,
    login Sample.verify Sample.token Sample.str
      {| lp_email := rp_email Sample.ann;
         lp_password := rp_password Sample.ann |} db'
    = (Ok (bearer_token Sample.token claims), db')
    ∧ claims !! "sub" = Some (VStr uid)
    ∧ get_current_user claims db' = (Ok u, db').
Proof.
  apply (register_then_login Sample.hash Sample.verify Sample.token Sample.str
           Sample.ann empty_db).
  - reflexivity.
  - cbn. set_solver.
  - apply not_elem_of_empty.
  - intros d n Hd. exfalso. revert Hd.
    change (d ∉ @nil doc). apply not_elem_of_nil.
  - reflexivity.
Defined.

(** ** Dashboards and inboxes *)

Section Inboxes.

Variable py_str : value → string.

Lemma elem_of_filter_eq (k : string) (v : value) (l : list doc) (d : doc) :
  d ∈ List.filter (matches [(k, Eq v)]) l ↔ d ∈ l ∧ get d k = v.
Proof.
  rewrite !list_elem_of_In, List.filter_In, matches_cons.
  unfold holds. cbn [fst snd forallb matches]. rewrite andb_true_r.
  by rewrite bool_decide_eq_true.
Qed.

(** A caller whose role is neither coach nor admin is refused.  Any coach
    or admin gets the teams coached and the events organized by the caller,
    and with them every registration of the store, whoever made it and for
    whichever event. *)
Theorem coach_dashboard_registrations (current : doc) (db : Db) :
  (get current "role" ∉ [VStr "coach"; VStr "admin"] →
   coach_dashboard current db = (Raise (HTTPException 403 "Only coaches"), db))
  ∧ (get current "role" ∈ [VStr "coach"; VStr "admin"] →
     ∃ d, coach_dashboard current db = (Ok d, db)
          ∧ registrations d = coll "registration" db
          ∧ (∀ t, t ∈ teams d ↔
                  t ∈ coll "team" db
                  ∧ get t "coach_user_id" = get current "id")
          ∧ (∀ e, e ∈ events d ↔
                  e ∈ coll "event" db
                  ∧ get e "organizer_user_id" = get current "id")).
Proof.
  unfold coach_dashboard, py_in. split; intros Hrole.
  - by rewrite (bool_decide_eq_false_2 _ Hrole).
  - rewrite (bool_decide_eq_true_2 _ Hrole). cbn [negb].
    eexists. split; [reflexivity|]. cbn [registrations teams events].
    split; [apply filter_matches_all|].
    split; intros x; apply elem_of_filter_eq.
Qed.

Lemma notify_and_return_sends (db : Db) (evt : doc) (rid : string) (reg : doc)
    (title : value) (organizer : string) :
  evt !! "title" = Some title →
  get evt "organizer_user_id" = VStr organizer →
  "notification" ∉ rejecting db →
  (notify_and_return py_str evt rid reg db).2
  = add_doc "notification"
      (registration_notice py_str (oid (next_id db)) organizer title) db.
Proof.
  intros Htitle Horg Hrej. unfold notify_and_return.
  unfold mbind at 1, M_bind at 1, getitem. rewrite Htitle.
  unfold mret at 1, M_ret at 1. rewrite Horg.
  unfold mbind at 1, M_bind at 1, lift, NotificationSchema.
  cbn [str_field mbind result_bind]. unfold literal_field.
  rewrite bool_decide_eq_true_2 by set_solver.
  cbn [mbind result_bind mret result_ret]. unfold result_ret. cbv beta iota.
  unfold mbind at 1, M_bind at 1, create_document.
  by rewrite (bool_decide_eq_false_2 _ Hrej).
Qed.

(** A first registration that goes through adds exactly one notification
    to the store: unread, of type event_update, titled "New Registration"
    and addressed to the organizer of the event.  It shows at the end of
    the organizer's [my_notifications] and in nobody else's. *)
Theorem registration_notifies_organizer (db : Db) (event_id : string)
    (current evt : doc) (capacity : Z) (uid organizer : string)
    (title : value) (who : doc) :
  lookup_by "event" "id" (VStr event_id) db = Some evt →
  registration_of event_id (get current "id") db = None →
  capacity_of evt = Ok capacity →
  get current "id" = VStr uid →
  "registration" ∉ rejecting db →
  evt !! "title" = Some title →
  get evt "organizer_user_id" = VStr organizer →
  "notification" ∉ rejecting db →
  let db' := (register_event py_str event_id current db).2 in
  let notice :=
    registration_notice py_str (oid (S (next_id db))) organizer title in
  coll "notification" db' = coll "notification" db ++ [notice]
  ∧ notice !! "read" = Some (VBool false)
  ∧ notice !! "type" = Some (VStr "event_update")
  ∧ ∃ before,
      my_notifications who db = (Ok before, db)
      ∧ my_notifications who db'
        = (Ok (before ++ if bool_decide (get who "id" = VStr organizer)
                         then [notice] else []), db').
Proof.
  intros Hevt Hnone Hcap Huid Hrej Htitle Horg Hnotif db' notice.
  assert (db' = add_doc "notification" notice
                  (add_doc "registration"
                     (stored (oid (next_id db))
                        (registration_doc event_id uid
                           (status_for event_id capacity db))) db)) as Hdb'.
  { unfold db'.
    rewrite (register_event_first py_str db event_id current evt capacity uid)
      by assumption.
    by rewrite (notify_and_return_sends _ _ _ _ title organizer). }
  assert (coll "notification" db' = coll "notification" db ++ [notice]) as Hcoll.
  { rewrite Hdb'. rewrite coll_add_doc, decide_True by done.
    by rewrite coll_add_doc, decide_False. }
  split; [done|]. do 2 (split; [reflexivity|]).
  eexists. split; [reflexivity|].
  unfold my_notifications, find. rewrite Hcoll, List.filter_app.
  do 3 f_equal. cbn [List.filter]. rewrite matches_cons. unfold holds.
  cbn [fst snd matches forallb]. rewrite andb_true_r.
  assert (get notice "user_id" = VStr organizer) as -> by reflexivity.
  apply (f_equal (λ b : bool, if b then [notice] else [])).
  apply bool_decide_ext. split; congruence.
Qed.

End Inboxes.

Lemma registration_notifies_organizer_witness :
  let db := Sample.event_db 2 in
  let db' := (register_event Sample.str "3" (Sample.user db "1") db).2 in
  let notice := registration_notice Sample.str "5" "0" (VStr "Cup") in
  coll "notification" db' = coll "notification" db ++ [notice]
  ∧ notice !! "read" = Some (VBool false)
  ∧ notice !! "type" = Some (VStr "event_update")
  ∧ ∃ before,
      my_notifications (Sample.user db "0") db = (Ok before, db)
      ∧ my_notifications (Sample.user db "0") db'
        = (Ok (before ++ if bool_decide (get (Sample.user db "0") "id" = VStr "0")
                         then [notice] else []), db').
Proof.
  intros db.
  apply (registration_notifies_organizer Sample.str db "3" (Sample.user db "1")
           (default ∅ (lookup_by "event" "id" (VStr "3") db)) 2 "1" "0"
           (VStr "Cup") (Sample.user db "0")).
  - reflexivity.
  - reflexivity.
  - reflexivity.
  - reflexivity.
  - vm_compute. discriminate.
  - reflexivity.
  - reflexivity.
  - vm_compute. discriminate.
Defined.

(** ** Filling an event *)

Section Filling.

Variable py_str : value → string.

Lemma register_event_success (db : Db) (event_id : string) (current evt : doc)
    (capacity : Z) (uid : string) :
  lookup_by "event" "id" (VStr event_id) db = Some evt →
  registration_of event_id (get current "id") db = None →
  capacity_of evt = Ok capacity →
  get current "id" = VStr uid →
  "registration" ∉ rejecting db →
  is_Some (evt !! "title") →
  (∃ organizer, get evt "organizer_user_id" = VStr organizer) →
  "notification" ∉ rejecting db →
  ids_generated "registration" db →
  let new := stored (oid (next_id db))
               (registration_doc event_id uid
                  (status_for event_id capacity db)) in
  ∃ notif,
    register_event py_str event_id current db
    = (Ok new, add_doc "notification" notif (add_doc "registration" new db)).
Proof.
  intros Hevt Hnone Hcap Huid Hrej [title Htitle] [organizer Horg] Hnotif Hgen
         new.
  rewrite (register_event_first py_str db event_id current evt capacity uid)
    by assumption.
  subst new.
  set (new := stored (oid (next_id db))
                (registration_doc event_id uid
                   (status_for event_id capacity db))).
  destruct (notify_and_return_ok py_str (add_doc "registration" new db) evt
              (oid (next_id db))
              (registration_doc event_id uid (status_for event_id capacity db))
              title organizer Htitle Horg Hnotif) as [notif ->].
  exists notif. unfold new. rewrite lookup_generated by done.
  unfold doc_or. by rewrite bool_decide_eq_true_2 by apply stored_nonempty.
Qed.

Lemma places_taken_after (db : Db) (event_id uid status : string) (notif : doc)
    (rid : string) :
  places_taken (VStr event_id)
    (add_doc "notification" notif
       (add_doc "registration"
          (stored rid (registration_doc event_id uid status)) db))
  = places_taken (VStr event_id) db
    + (if bool_decide (status ∈ ["pending"; "confirmed"]) then 1 else 0).
Proof.
  unfold places_taken. rewrite coll_add_doc, decide_False by done.
  rewrite coll_add_doc, decide_True by done.
  rewrite List.filter_app, length_app. f_equal. cbn [List.filter].
  unfold holds_place.
  assert (get (stored rid (registration_doc event_id uid status)) "event_id"
          = VStr event_id) as -> by reflexivity.
  assert (get (stored rid (registration_doc event_id uid status)) "status"
          = VStr status) as -> by reflexivity.
  rewrite bool_decide_eq_true_2 by done. cbn [andb].
  assert (bool_decide (VStr status ∈ [VStr "pending"; VStr "confirmed"])
          = bool_decide (status ∈ ["pending"; "confirmed"])) as ->.
  { apply bool_decide_ext. rewrite !elem_of_cons, !elem_of_nil.
    split; intros [?|[?|[]]]; simplify_eq; auto. }
  by case_bool_decide.
Qed.

(** Callers with distinct identifiers, none of them registered yet, who
    register for an event one after the other while the store takes every
    insert: each gets a registration, and the one at position [i], counting
    from 0, is confirmed when the places taken beforehand plus [i] are less
    than the capacity, and waitlisted otherwise.  With no place taken and
    capacity [N], the first [N] callers are confirmed and all later ones
    waitlisted. *)
Theorem registrants_fill_then_wait (callers : list doc) (db : Db)
    (event_id : string) (evt : doc) (capacity : Z) :
  lookup_by "event" "id" (VStr event_id) db = Some evt →
  capacity_of evt = Ok capacity →
  is_Some (evt !! "title") →
  (∃ organizer, get evt "organizer_user_id" = VStr organizer) →
  "registration" ∉ rejecting db →
  "notification" ∉ rejecting db →
  ids_generated "registration" db →
  Forall (λ c, ∃ uid, get c "id" = VStr uid) callers →
  NoDup ((λ c, get c "id") <$> callers) →
  Forall (λ c, registration_of event_id (get c "id") db = None) callers →
  ∃ regs db',
    for_each (register_event py_str event_id) callers db = (Ok regs, db')
    ∧ length regs = length callers
    ∧ ∀ i reg, regs !! i = Some reg →
        reg !! "status"
        = Some (VStr (if bool_decide
                           (Z.of_nat (places_taken (VStr event_id) db + i)
                            < capacity)%Z
                      then "confirmed" else "waitlisted")).
Proof.
  revert db. induction callers as [|c callers IH];
    intros db Hevt Hcap Htitle Horg Hrej Hnotif Hgen Hids Hdup Hnone.
  { exists [], db. repeat split. intros i reg Hi. by rewrite lookup_nil in Hi. }
  apply Forall_cons in Hids as [[uid Huid] Hids].
  apply Forall_cons in Hnone as [Hnone1 Hnone].
  rewrite fmap_cons in Hdup. apply NoDup_cons in Hdup as [Hfresh Hdup].
  destruct (register_event_success db event_id c evt capacity uid)
    as [notif Hfirst]; [done..|].
  set (status := status_for event_id capacity db) in *.
  set (new := stored (oid (next_id db)) (registration_doc event_id uid status))
    in *.
  set (db1 := add_doc "notification" notif (add_doc "registration" new db)) in *.
  assert (coll "registration" db1 = coll "registration" db ++ [new]) as Hregs.
  { unfold db1. rewrite coll_add_doc, decide_False by done.
    by rewrite coll_add_doc, decide_True. }
  destruct (IH db1) as (regs & db' & Hrest & Hlen & Hstatus).
  - unfold lookup_by, db1 in *. by rewrite !coll_add_doc, !decide_False.
  - done.
  - done.
  - done.
  - done.
  - done.
  - intros d n Hd Hid. rewrite Hregs in Hd. cbn [db1 next_id add_doc].
    apply elem_of_app in Hd as [Hd|Hd%list_elem_of_singleton].
    + specialize (Hgen d n Hd Hid). lia.
    + subst d. assert (get new "id" = VStr (oid (next_id db))) as Hnew
        by reflexivity.
      rewrite Hnew in Hid. injection Hid as Hid%oid_inj. lia.
  - done.
  - done.
  - apply Forall_forall. intros c' Hc'.
    rewrite Forall_forall in Hnone. specialize (Hnone c' Hc').
    unfold registration_of in *. rewrite Hregs, find_app_None by done.
    cbn [List.find]. unfold matches. cbn [forallb]. unfold holds at 2.
    cbn [fst snd].
    assert (get new "user_id" = VStr uid) as -> by reflexivity.
    rewrite (bool_decide_eq_false_2 (VStr uid = get c' "id")).
    + by rewrite andb_false_r.
    + intros Heq. apply Hfresh. rewrite Huid, Heq.
      apply list_elem_of_fmap. by exists c'.
  - exists (new :: regs), db'. split; [|split].
    + cbn [for_each]. unfold mbind at 1, M_bind at 1. rewrite Hfirst.
      unfold mbind, M_bind. by rewrite Hrest.
    + cbn. by rewrite Hlen.
    + intros [|i] reg Hi; cbn in Hi.
      * injection Hi as <-. rewrite Nat.add_0_r.
        assert (new !! "status" = Some (VStr status)) as -> by reflexivity.
        reflexivity.
      * rewrite (Hstatus i reg Hi). do 2 f_equal.
        unfold db1, new. rewrite places_taken_after.
        apply (f_equal (λ b : bool, if b then "confirmed" else "waitlisted")).
        apply bool_decide_ext. unfold status, status_for.
        destruct (decide (Z.of_nat (places_taken (VStr event_id) db)
                          < capacity)%Z) as [Hroom|Hroom].
        -- rewrite (bool_decide_eq_true_2 _ Hroom).
           rewrite bool_decide_eq_true_2 by set_solver. lia.
        -- rewrite (bool_decide_eq_false_2 _ Hroom).
           rewrite bool_decide_eq_false_2
             by (rewrite !elem_of_cons, elem_of_nil; naive_solver).
           lia.
Qed.

End Filling.

(** Capacity 2: the first two callers are confirmed and the third waits. *)
Lemma registrants_fill_then_wait_witness :
  let db := Sample.event_db 2 in
  let callers := [Sample.user db "1"; Sample.user db "2"; Sample.user db "0"] in
  ∃ regs db',
    for_each (register_event Sample.str "3") callers db = (Ok regs, db')
    ∧ length regs = length callers
    ∧ ∀ i reg, regs !! i = Some reg →
        reg !! "status"
        = Some (VStr (if bool_decide
                           (Z.of_nat (places_taken (VStr "3") db + i) < 2)%Z
                      then "confirmed" else "waitlisted")).
Proof.
  intros db callers.
  apply (registrants_fill_then_wait Sample.str callers db "3"
           (default ∅ (lookup_by "event" "id" (VStr "3") db)) 2).
  - reflexivity.
  - reflexivity.
  - by eexists.
  - by exists "0".
  - vm_compute. discriminate.
  - vm_compute. discriminate.
  - intros d n Hd. exfalso. revert Hd.
    change (d ∉ @nil doc). apply not_elem_of_nil.
  - repeat constructor; by eexists.
  - change (NoDup [VStr "1"; VStr "2"; VStr "0"]).
    repeat constructor; set_solver.
  - repeat constructor.
Defined.

(** ** Seeding *)

Section Seeding.

Variable hash_password : string → string.
Variable create_access_token : doc → string.
Variable py_str : value → string.
Variable isoformat_date : Z → string.

(** Once the store holds a user, however it got there (a registration, or
    a seed that failed half-way), no later [seed] writes anything: after any
    further requests it answers "Already seeded" and leaves the store as it
    is, also when the demo data is incomplete. *)
Theorem seed_never_after_first_user (db db' : Db) (now : Z) :
  coll "user" db ≠ [] →
  evolves hash_password create_access_token py_str isoformat_date db db' →
  seed hash_password isoformat_date now db'
  = (Ok {["message" := VStr "Already seeded"]}, db').
Proof.
  intros Husers Hlater.
  destruct (evolves_grows hash_password create_access_token py_str
              isoformat_date "user" db db') as [added Hgrown];
    [unfold kept_whole; set_solver | done |].
  unfold seed, mbind, M_bind, count_documents.
  rewrite filter_matches_all, Hgrown, length_app.
  rewrite bool_decide_eq_true_2; [done|].
  destruct (coll "user" db); [done | cbn; lia].
Qed.

End Seeding.

Lemma seed_never_after_first_user_witness :
  let db := Sample.event_db 2 in
  seed Sample.hash Sample.isodate 0 (Sample.run [PostSeed 7] db)
  = (Ok {["message" := VStr "Already seeded"]}, Sample.run [PostSeed 7] db).
Proof.
  intros db.
  apply (seed_never_after_first_user Sample.hash Sample.token Sample.str
           Sample.isodate db (Sample.run [PostSeed 7] db) 0).
  - discriminate.
  - apply evolves_run, evolves_refl.
Defined.

Lemma create_event_then_get_event_witness :
  let db := Sample.event_db 2 in
  let current := Sample.user db "0" in
  ∃ d, create_event (Sample.cup 0) current db = (Ok d, add_doc "event" d db)
       ∧ d !! "id" = Some (VStr (oid (next_id db)))
       ∧ d !! "organizer_user_id" = Some (VStr "0")
       ∧ d !! "capacity" = Some (VInt (ec_capacity (Sample.cup 0)))
       ∧ d !! "title" = Some (VStr (ec_title (Sample.cup 0)))
       ∧ get_event (oid (next_id db)) (add_doc "event" d db)
         = (Ok d, add_doc "event" d db).
Proof.
  intros db current.
  apply (proj2 (create_event_then_get_event (Sample.cup 0) current db)).
  - change (get current "role") with (VStr "organizer"). set_solver.
  - reflexivity.
  - vm_compute. discriminate.
  - intros d n Hd Hid.
    change (coll "event" db)
      with [default ∅ (lookup_by "event" "id" (VStr "3") db)] in Hd.
    apply list_elem_of_singleton in Hd. subst d.
    change (VStr "3" = VStr (oid n)) in Hid. injection Hid as Hid.
    change (oid 3 = oid n) in Hid. apply oid_inj in Hid. subst n.
    change (3 < 4). lia.
Defined.

Lemma coach_dashboard_registrations_witness :
  let db := Sample.inbox_db in
  let current := Sample.user Sample.roster_db "0" in
  ∃ d, coach_dashboard current db = (Ok d, db)
       ∧ registrations d = coll "registration" db
       ∧ (∀ t, t ∈ teams d ↔
               t ∈ coll "team" db ∧ get t "coach_user_id" = get current "id")
       ∧ (∀ e, e ∈ events d ↔
               e ∈ coll "event" db
               ∧ get e "organizer_user_id" = get current "id").
Proof.
  intros db current.
  apply (proj2 (coach_dashboard_registrations current db)).
  change (get current "role") with (VStr "coach"). set_solver.
Defined.

Lemma login_outcomes_witness :
  (login Sample.verify Sample.token Sample.str
     {| lp_email := "nobody@sportex.io"; lp_password := "pw" |}
     (Sample.event_db 2)).1
  = Raise (HTTPException 400 "Invalid credentials").
Proof.
  apply (proj1 (proj2 (login_outcomes Sample.verify Sample.token Sample.str
                         {| lp_email := "nobody@sportex.io";
                            lp_password := "pw" |} (Sample.event_db 2)))).
  reflexivity.
Defined.
